(** * Video analysis handler: a shallow embedding of [main.py]

    The handler receives a storage event, asks the video annotation service
    for an analysis, prints two reports and appends rows to two BigQuery
    tables.  The Python functions are embedded as functions of a state and
    error monad whose state carries the standard output, the trace of the
    calls made to the two cloud services, and the state of those services. *)

From Stdlib Require Import String Ascii List ZArith QArith Qcanon.
From Stdlib Require Import Sorted Permutation Lia DecimalString.
From stdpp Require Import gmap strings list fin_maps.

Open Scope string_scope.
Open Scope list_scope.

(** ** Python values *)

(** A finite Python [float] is the rational number it denotes; the source
    only compares floats and hands them to formatting, and comparison of
    finite floats is exact.  Canonical rationals give Leibniz equality. *)
Definition float : Type := Qc.

Definition float_le (a b : float) : bool := bool_decide (a ≤ b)%Qc.
Definition float_lt (a b : float) : bool := bool_decide (a < b)%Qc.

(** [datetime.timedelta], in microseconds. *)
Definition timedelta : Type := Z.

(** The exceptions the handler can meet.  [NotFound] is a subclass of
    [GoogleCloudError]; [GoogleCloudError cls msg] stands for an instance of
    any of its other subclasses (Forbidden, ServiceUnavailable, ...), and
    [PyException cls msg] for an exception outside that hierarchy. *)
Inductive exn : Type :=
| KeyError (key : string)
| IndexError
| NotFound (msg : string)
| GoogleCloudError (cls msg : string)
| PyException (cls msg : string).

Definition isinstance_NotFound (e : exn) : bool :=
  match e with NotFound _ => true | _ => false end.

Definition isinstance_GoogleCloudError (e : exn) : bool :=
  match e with NotFound _ | GoogleCloudError _ _ => true | _ => false end.

(** [str(e)], as [format] renders an exception. *)
Definition str_exn (e : exn) : string :=
  match e with
  | KeyError k => "'" +:+ k +:+ "'"
  | IndexError => "list index out of range"
  | NotFound msg | GoogleCloudError _ msg | PyException _ msg => msg
  end.

Inductive Result (A : Type) : Type :=
| Ok (a : A)
| Raise (e : exn).
Arguments Ok {A} a.
Arguments Raise {A} e.

Definition rbind {A B} (r : Result A) (k : A → Result B) : Result B :=
  match r with Ok a => k a | Raise e => Raise e end.

Notation "'try!' x := r 'in' k" := (rbind r (fun x => k))
  (at level 10, x name, r at level 100, k at level 200, only parsing).

(** [l[i]] with Python's negative indices. *)
Definition getitem {A} (l : list A) (i : Z) : Result A :=
  let n := Z.of_nat (length l) in
  let j := if (i <? 0)%Z then (i + n)%Z else i in
  if ((0 <=? j) && (j <? n))%Z
  then match l !! Z.to_nat j with Some a => Ok a | None => Raise IndexError end
  else Raise IndexError.

(** [d[k]] on a dictionary of strings. *)
Definition dict_getitem (d : gmap string string) (k : string) : Result string :=
  match d !! k with Some v => Ok v | None => Raise (KeyError k) end.

(** ** Strings *)

Module Str.

(** [s.split(sep)] for a one-character separator. *)
Fixpoint split (sep : ascii) (s : string) : list string :=
  match s with
  | EmptyString => [EmptyString]
  | String c s' =>
      if Ascii.eqb c sep then EmptyString :: split sep s'
      else match split sep s' with
           | w :: ws => String c w :: ws
           | [] => [String c EmptyString]
           end
  end.

(** [sep.join(l)] *)
Definition join (sep : string) (l : list string) : string :=
  String.concat sep l.

(** [c.isspace()] for the code points below 256. *)
Definition isspace (c : ascii) : bool :=
  let n := nat_of_ascii c in
  (((9 <=? n) && (n <=? 13)) || ((28 <=? n) && (n <=? 32))
   || (n =? 133) || (n =? 160))%nat.

Fixpoint lstrip (s : string) : string :=
  match s with
  | String c s' => if isspace c then lstrip s' else s
  | EmptyString => EmptyString
  end.

Fixpoint rstrip (s : string) : string :=
  match s with
  | EmptyString => EmptyString
  | String c s' =>
      match rstrip s' with
      | EmptyString => if isspace c then EmptyString else String c EmptyString
      | t => String c t
      end
  end.

(** [s.strip()] *)
Definition strip (s : string) : string := rstrip (lstrip s).

Fixpoint repeat (c : ascii) (n : nat) : string :=
  match n with O => EmptyString | S n' => String c (repeat c n') end.

(** [s.center(width, fill)]: CPython puts the odd padding character on
    the left exactly when the width is odd. *)
Definition center (width : nat) (fill : ascii) (s : string) : string :=
  let len := String.length s in
  if (width <=? len)%nat then s
  else
    let marg := (width - len)%nat in
    let left :=
      (marg / 2 + (if Nat.odd marg && Nat.odd width then 1 else 0))%nat in
    repeat fill left +:+ s +:+ repeat fill (marg - left)%nat.

(** [str(n)] for a length. *)
Definition of_nat (n : nat) : string := NilEmpty.string_of_uint (Nat.to_uint n).

(** The character is absent from the string. *)
Fixpoint lacks (c : ascii) (s : string) : bool :=
  match s with
  | EmptyString => true
  | String d s' => negb (Ascii.eqb d c) && lacks c s'
  end.

End Str.

(** ** Data model *)

(** *** Annotation results (the classes of [videointelligence] the handler reads) *)

Module Entity.
Record t : Type := { description : string }.
End Entity.

Module VideoSegment.
Record t : Type := { start_time_offset : timedelta; end_time_offset : timedelta }.
End VideoSegment.

Module LabelSegment.
Record t : Type := { segment : VideoSegment.t; confidence : float }.
End LabelSegment.

Module LabelAnnotation.
Record t : Type := {
  entity : Entity.t;
  category_entities : list Entity.t;
  segments : list LabelSegment.t }.
End LabelAnnotation.

Module SpeechRecognitionAlternative.
Record t : Type := { transcript : string; confidence : float }.
End SpeechRecognitionAlternative.

Module SpeechTranscription.
Record t : Type := { alternatives : list SpeechRecognitionAlternative.t }.
End SpeechTranscription.

Module VideoAnnotationResults.
Record t : Type := {
  segment_label_annotations : list LabelAnnotation.t;
  speech_transcriptions : list SpeechTranscription.t }.
End VideoAnnotationResults.

(** *** The annotation request *)

Inductive Feature : Type :=
| OBJECT_TRACKING | LABEL_DETECTION | SHOT_CHANGE_DETECTION
| SPEECH_TRANSCRIPTION | LOGO_RECOGNITION | EXPLICIT_CONTENT_DETECTION
| TEXT_DETECTION | FACE_DETECTION | PERSON_DETECTION.

Record SpeechTranscriptionConfig : Type := {
  language_code : string;
  enable_automatic_punctuation : bool }.

Record PersonDetectionConfig : Type := {
  person_include_bounding_boxes : bool;
  person_include_attributes : bool;
  person_include_pose_landmarks : bool }.

Record FaceDetectionConfig : Type := {
  face_include_bounding_boxes : bool;
  face_include_attributes : bool }.

Record VideoContext : Type := {
  speech_transcription_config : SpeechTranscriptionConfig;
  person_detection_config : PersonDetectionConfig;
  face_detection_config : FaceDetectionConfig }.

Module Request.
Record t : Type := {
  features : list Feature;
  input_uri : string;
  output_uri : string;
  video_context : VideoContext }.
End Request.

(** *** BigQuery tables and rows *)

Record SchemaField : Type := {
  field_name : string;
  field_type : string;
  field_mode : string }.

(** [client.dataset(d).table(t)]; the project is the client's own. *)
Record TableReference : Type := { dataset_id : string; table_id : string }.

Module Table.
Record t : Type := { reference : TableReference; schema : list SchemaField }.
End Table.

Module LabelRow.
Record t : Type := {
  file_name : string;
  label : string;
  confidence : float;
  start_time : float;
  end_time : float;
  file_uri : string }.
End LabelRow.

Module TranscriptRow.
Record t : Type := {
  file_name : string;
  transcript : string;
  confidence : float }.
End TranscriptRow.

(** A JSON row handed to [insert_rows_json]. *)
Inductive Row : Type :=
| RowOfLabel (r : LabelRow.t)
| RowOfTranscript (r : TranscriptRow.t).

(** One entry of the list [insert_rows_json] returns: the index of a
    rejected row and the reasons the store gives. *)
Record RowError : Type := { index : nat; errors : list string }.

(** ** The two cloud services *)

(** A call that reached one of the services. *)
Inductive Call : Type :=
| CallAnnotateVideo (request : Request.t)
| CallGetTable (ref : TableReference)
| CallCreateTable (table : Table.t)
| CallInsertRowsJson (ref : TableReference) (rows : list Row).

(** What the services answer, as functions of their state [W].
    [annotate_video] stands for the submission together with
    [operation.result()], which blocks until the operation ends. *)
Record Cloud (W : Type) : Type := {
  annotate_video : Request.t → W → Result (list VideoAnnotationResults.t) * W;
  get_table : TableReference → W → Result Table.t * W;
  create_table : Table.t → W → Result Table.t * W;
  insert_rows_json : TableReference → list Row → W → Result (list RowError) * W }.
Arguments annotate_video {W} _ _ _.
Arguments get_table {W} _ _ _.
Arguments create_table {W} _ _ _.
Arguments insert_rows_json {W} _ _ _ _.

(** What the Python runtime and the client libraries render: float
    formatting ([format(x, "4.0%")], [format(x, "7.3f")]), the division
    of [timedelta.total_seconds()], and [repr] of the printed objects. *)
Record Runtime : Type := {
  format_percent : float → string;
  format_fixed : float → string;
  total_seconds : timedelta → float;
  repr_event : gmap string string → string;
  repr_errors : list RowError → string }.

(** ** The monad of the handler *)

Record State (W : Type) : Type := {
  stdout : list string;
  calls : list Call;
  world : W }.
Arguments stdout {W} _.
Arguments calls {W} _.
Arguments world {W} _.
Arguments Build_State {W} _ _ _.

Definition M (W A : Type) : Type := State W → Result A * State W.

Section Monad.
Context {W : Type}.

Definition ret {A} (a : A) : M W A := fun s => (Ok a, s).

Definition raise {A} (e : exn) : M W A := fun s => (Raise e, s).

Definition bind {A B} (m : M W A) (k : A → M W B) : M W B :=
  fun s => match m s with
           | (Ok a, s') => k a s'
           | (Raise e, s') => (Raise e, s')
           end.

(** A pure computation that may raise. *)
Definition lift {A} (r : Result A) : M W A := fun s => (r, s).

(** [print(line)] *)
Definition print (line : string) : M W unit :=
  fun s => (Ok tt, Build_State (stdout s ++ [line]) (calls s) (world s)).

(** A call to a service: recorded in the trace, answered by the service. *)
Definition call {A} (c : Call) (answer : W → Result A * W) : M W A :=
  fun s => let (r, w) := answer (world s) in
           (r, Build_State (stdout s) (calls s ++ [c]) w).

(** [try: body  except cls as e: handler e], with [cls] given by its
    [isinstance] test. *)
Definition try_except {A} (body : M W A)
           (cls : exn → bool) (handler : exn → M W A) : M W A :=
  fun s => match body s with
           | (Ok a, s') => (Ok a, s')
           | (Raise e, s') => if cls e then handler e s' else (Raise e, s')
           end.

(** [for x in l: body x] *)
Fixpoint for_each {A} (l : list A) (body : A → M W unit) : M W unit :=
  match l with
  | [] => ret tt
  | x :: l' => bind (body x) (fun _ => for_each l' body)
  end.

End Monad.

Notation "'do!' x := m 'in' k" := (bind m (fun x => k))
  (at level 10, x name, m at level 100, k at level 200, only parsing).
Notation "m ';;!' k" := (bind m (fun _ => k))
  (at level 100, k at level 200, right associativity, only parsing).

(** ** Python's [sorted] *)

Module Py.

(** One step of the insertion: [x] goes before the first element that is
    not smaller than it.  Only [lt] is used, as [list.sort] only uses
    [<]; the element inserted comes from the left of the ones already
    placed, so equal keys keep their order. *)
Fixpoint insert_by {A} (lt : A → A → bool) (x : A) (l : list A) : list A :=
  match l with
  | [] => [x]
  | y :: l' => if lt y x then y :: insert_by lt x l' else x :: y :: l'
  end.

Fixpoint sort_asc {A} (lt : A → A → bool) (l : list A) : list A :=
  match l with
  | [] => []
  | x :: l' => insert_by lt x (sort_asc lt l')
  end.

(** The keys are computed first, once per element and from the left. *)
Fixpoint decorate {A K} (key : A → Result K) (l : list A) : Result (list (K * A)) :=
  match l with
  | [] => Ok []
  | x :: l' =>
      try! k := key x in
      try! rest := decorate key l' in
      Ok ((k, x) :: rest)
  end.

(** [sorted(l, key=key, reverse=reverse)] on float keys.  With
    [reverse=True] CPython reverses the list, sorts it in ascending
    order, and reverses the outcome, which keeps the sort stable. *)
Definition sorted {A} (key : A → Result float) (reverse : bool) (l : list A)
  : Result (list A) :=
  try! keyed := decorate key l in
  let lt (p q : float * A) := float_lt (fst p) (fst q) in
  let out := if reverse then rev (sort_asc lt (rev keyed)) else sort_asc lt keyed in
  Ok (map snd out).

(** A list comprehension [[x for x in l if keep x]]. *)
Fixpoint filter_if {A} (keep : A → Result bool) (l : list A) : Result (list A) :=
  match l with
  | [] => Ok []
  | x :: l' =>
      try! b := keep x in
      try! rest := filter_if keep l' in
      Ok (if b then x :: rest else rest)
  end.

(** A loop that threads an accumulator and may raise. *)
Fixpoint foldl {A B} (f : B → A → Result B) (l : list A) (acc : B) : Result B :=
  match l with
  | [] => Ok acc
  | x :: l' => try! acc' := f acc x in foldl f l' acc'
  end.

End Py.

(** ** The handler *)

Definition OUTPUT_BUCKET : string := "gs://outputbucket-cloud9".
Definition PROJECT_ID : string := "video-analyzer-407616".
Definition DATASET_ID : string := "video_analytics".
Definition TABLE_ID_LABELS : string := "annotation_labels".
Definition TABLE_ID_TRANSCRIPT : string := "annotation_transcripts".

Definition features : list Feature :=
  [ OBJECT_TRACKING; LABEL_DETECTION; SHOT_CHANGE_DETECTION;
    SPEECH_TRANSCRIPTION; LOGO_RECOGNITION; EXPLICIT_CONTENT_DETECTION;
    TEXT_DETECTION; FACE_DETECTION; PERSON_DETECTION ].

Definition speech_config : SpeechTranscriptionConfig :=
  {| language_code := "en-US"; enable_automatic_punctuation := true |}.

Definition person_config : PersonDetectionConfig :=
  {| person_include_bounding_boxes := true;
     person_include_attributes := false;
     person_include_pose_landmarks := true |}.

Definition face_config : FaceDetectionConfig :=
  {| face_include_bounding_boxes := true; face_include_attributes := true |}.

Definition video_context : VideoContext :=
  {| speech_transcription_config := speech_config;
     person_detection_config := person_config;
     face_detection_config := face_config |}.

Definition dquote : string := String "034"%char EmptyString.

(** Lines 53 to 61 of [analyze_video]: the request built from the event. *)
Definition build_request (event : gmap string string) : Result Request.t :=
  try! bucket := dict_getitem event "bucket" in
  try! name := dict_getitem event "name" in
  let input_uri := "gs://" +:+ bucket +:+ "/" +:+ name in
  try! name' := dict_getitem event "name" in
  try! file_stem := getitem (Str.split "."%char name') 0 in
  let output_uri := OUTPUT_BUCKET +:+ "/" +:+ file_stem +:+ ".json" in
  Ok {| Request.features := features;
        Request.input_uri := input_uri;
        Request.output_uri := output_uri;
        Request.video_context := video_context |}.

Definition first_segment_confidence (label : LabelAnnotation.t) : Result float :=
  try! s := getitem (LabelAnnotation.segments label) 0 in
  Ok (LabelSegment.confidence s).

Definition sorted_by_first_segment_confidence (labels : list LabelAnnotation.t)
  : Result (list LabelAnnotation.t) :=
  Py.sorted first_segment_confidence true labels.

Definition category_entities_to_str (category_entities : list Entity.t) : string :=
  match category_entities with
  | [] => EmptyString
  | _ =>
      let entities := Str.join ", " (map Entity.description category_entities) in
      " (" +:+ entities +:+ ")"
  end.

(** The default of [min_confidence] in [print_video_speech]. *)
Definition default_min_confidence : float := Q2Qc (8 # 10).

(** The schemas of [create_bigquery_tables]. *)
Definition schema_labels : list SchemaField :=
  [ {| field_name := "file_name"; field_type := "STRING"; field_mode := "REQUIRED" |};
    {| field_name := "label"; field_type := "STRING"; field_mode := "REQUIRED" |};
    {| field_name := "confidence"; field_type := "FLOAT"; field_mode := "NULLABLE" |};
    {| field_name := "start_time"; field_type := "FLOAT"; field_mode := "NULLABLE" |};
    {| field_name := "end_time"; field_type := "FLOAT"; field_mode := "NULLABLE" |};
    {| field_name := "file_uri"; field_type := "STRING"; field_mode := "REQUIRED" |} ].

Definition schema_transcript : list SchemaField :=
  [ {| field_name := "file_name"; field_type := "STRING"; field_mode := "REQUIRED" |};
    {| field_name := "transcript"; field_type := "STRING"; field_mode := "REQUIRED" |};
    {| field_name := "confidence"; field_type := "FLOAT"; field_mode := "NULLABLE" |} ].

Definition table_ref_labels : TableReference :=
  {| dataset_id := DATASET_ID; table_id := TABLE_ID_LABELS |}.

Definition table_ref_transcript : TableReference :=
  {| dataset_id := DATASET_ID; table_id := TABLE_ID_TRANSCRIPT |}.

Section Handler.
Context {W : Type} (cloud : Cloud W) (rt : Runtime).

(** The row appended for one segment of one label annotation
    (lines 154 to 164). *)
Definition label_row (file_name video_uri : string)
           (label_annotation : LabelAnnotation.t) (segment : LabelSegment.t)
  : LabelRow.t :=
  let start_time :=
    total_seconds rt (VideoSegment.start_time_offset (LabelSegment.segment segment)) in
  let end_time :=
    total_seconds rt (VideoSegment.end_time_offset (LabelSegment.segment segment)) in
  let confidence := LabelSegment.confidence segment in
  {| LabelRow.file_name := file_name;
     LabelRow.label := Entity.description (LabelAnnotation.entity label_annotation);
     LabelRow.confidence := confidence;
     LabelRow.start_time := start_time;
     LabelRow.end_time := end_time;
     LabelRow.file_uri := video_uri |}.

(** The row appended for one transcription (lines 169 to 176). *)
Definition transcript_row (file_name : string)
           (transcription : SpeechTranscription.t) : Result TranscriptRow.t :=
  try! first_alternative := getitem (SpeechTranscription.alternatives transcription) 0 in
  let confidence := SpeechRecognitionAlternative.confidence first_alternative in
  let transcript := SpeechRecognitionAlternative.transcript first_alternative in
  Ok {| TranscriptRow.file_name := file_name;
        TranscriptRow.transcript := transcript;
        TranscriptRow.confidence := confidence |}.

(** Lines 144 to 176 of [store_results_in_bigquery]: the two lists of
    rows, each built by appending inside its loop. *)
Definition project (video_uri : string)
           (results_labels results_transcript : VideoAnnotationResults.t)
  : Result (list LabelRow.t * list TranscriptRow.t) :=
  let url_parts := Str.split "/"%char video_uri in
  try! file_name := getitem url_parts (-1) in
  let rows_to_insert_labels :=
    fold_left
      (fun (rows : list LabelRow.t) label_annotation =>
         fold_left
           (fun (rows : list LabelRow.t) segment =>
              (rows ++ [label_row file_name video_uri label_annotation segment])%list)
           (LabelAnnotation.segments label_annotation) rows)
      (VideoAnnotationResults.segment_label_annotations results_labels) [] in
  let transcriptions := VideoAnnotationResults.speech_transcriptions results_transcript in
  try! rows_to_insert_transcript :=
    Py.foldl
      (fun (rows : list TranscriptRow.t) transcription =>
         try! row := transcript_row file_name transcription in
         Ok (rows ++ [row])%list)
      transcriptions [] in
  Ok (rows_to_insert_labels, rows_to_insert_transcript).

(** [analyze_video(event, context)]; [context] is not used. *)
Definition analyze_video (event : gmap string string)
  : M W (list VideoAnnotationResults.t) :=
  print (repr_event rt event) ;;!
  do! request := lift (build_request event) in
  print ("Processing video " +:+ dquote +:+ Request.input_uri request
         +:+ dquote +:+ "...") ;;!
  do! results := call (CallAnnotateVideo request) (annotate_video cloud request) in
  ret results.

(** The line printed for one segment of a label (line 87). *)
Definition label_line (label : LabelAnnotation.t) (segment : LabelSegment.t)
  : string :=
  let categories := category_entities_to_str (LabelAnnotation.category_entities label) in
  let confidence := LabelSegment.confidence segment in
  let t1 := total_seconds rt (VideoSegment.start_time_offset (LabelSegment.segment segment)) in
  let t2 := total_seconds rt (VideoSegment.end_time_offset (LabelSegment.segment segment)) in
  format_percent rt confidence +:+ " | " +:+ format_fixed rt t1 +:+ " | "
  +:+ format_fixed rt t2 +:+ " | "
  +:+ Entity.description (LabelAnnotation.entity label) +:+ categories.

Definition print_video_labels (results : VideoAnnotationResults.t) : M W unit :=
  do! labels :=
    lift (sorted_by_first_segment_confidence
            (VideoAnnotationResults.segment_label_annotations results)) in
  print (Str.center 80 "-"%char
           (" Video labels: " +:+ Str.of_nat (length labels) +:+ " ")) ;;!
  for_each labels (fun label =>
    for_each (LabelAnnotation.segments label) (fun segment =>
      print (label_line label segment))).

Definition keep_transcription (min_confidence : float)
           (transcription : SpeechTranscription.t) : Result bool :=
  try! a := getitem (SpeechTranscription.alternatives transcription) 0 in
  Ok (float_le min_confidence (SpeechRecognitionAlternative.confidence a)).

(** The line printed for a first alternative (line 101). *)
Definition speech_line (first_alternative : SpeechRecognitionAlternative.t) : string :=
  let confidence := SpeechRecognitionAlternative.confidence first_alternative in
  let transcript := SpeechRecognitionAlternative.transcript first_alternative in
  " " +:+ format_percent rt confidence +:+ " | " +:+ Str.strip transcript.

Definition print_video_speech (results : VideoAnnotationResults.t)
           (min_confidence : float) : M W unit :=
  let transcriptions := VideoAnnotationResults.speech_transcriptions results in
  do! transcriptions :=
    lift (Py.filter_if (keep_transcription min_confidence) transcriptions) in
  print (Str.center 80 "-"%char
           (" Speech transcriptions: " +:+ Str.of_nat (length transcriptions)
            +:+ " ")) ;;!
  for_each transcriptions (fun transcription =>
    do! first_alternative :=
      lift (getitem (SpeechTranscription.alternatives transcription) 0) in
    print (speech_line first_alternative)).

(** One of the two blocks of [create_bigquery_tables] (lines 122 to 129
    and 132 to 139), which differ in the table and its schema only. *)
Definition create_table_unless_found (table_ref : TableReference)
           (schema : list SchemaField) : M W unit :=
  try_except
    (do! _found := call (CallGetTable table_ref) (get_table cloud table_ref) in
     print ("Table " +:+ table_id table_ref
            +:+ " already exists. Skipping creation."))
    isinstance_NotFound
    (fun _ =>
       let table := {| Table.reference := table_ref; Table.schema := schema |} in
       do! table := call (CallCreateTable table) (create_table cloud table) in
       print ("Table " +:+ table_id (Table.reference table) +:+ " created.")).

Definition create_bigquery_tables : M W unit :=
  create_table_unless_found table_ref_labels schema_labels ;;!
  create_table_unless_found table_ref_transcript schema_transcript.

(** The line printed for the outcome of one append (lines 182 to 185
    and 190 to 193): the answer is the list of the rows in error. *)
Definition insert_report (table : string) (annotation : list RowError) : string :=
  match annotation with
  | [] => "New rows have been added to the '" +:+ table +:+ "' table."
  | _ => "Encountered errors while inserting rows into '" +:+ table
         +:+ "' table: " +:+ repr_errors rt annotation
  end.

(** The line printed by the [except] clause (line 195). *)
Definition error_line (e : exn) : string :=
  "Error inserting rows into BigQuery: " +:+ str_exn e.

(** Lines 178 to 195 of [store_results_in_bigquery]: the two appends,
    inside one [try] block. *)
Definition append_rows (rows_to_insert_labels rows_to_insert_transcript : list Row)
  : M W unit :=
  try_except
    (let table_labels := table_ref_labels in
     do! annotation_labels :=
       call (CallInsertRowsJson table_labels rows_to_insert_labels)
            (insert_rows_json cloud table_labels rows_to_insert_labels) in
     print (insert_report "labels" annotation_labels) ;;!
     let table_transcript := table_ref_transcript in
     do! annotation_transcripts :=
       call (CallInsertRowsJson table_transcript rows_to_insert_transcript)
            (insert_rows_json cloud table_transcript rows_to_insert_transcript) in
     print (insert_report "transcript" annotation_transcripts))
    isinstance_GoogleCloudError
    (fun e => print (error_line e)).

Definition store_results_in_bigquery (video_uri : string)
           (results : list VideoAnnotationResults.t) : M W unit :=
  do! results_labels := lift (getitem results 0) in
  do! results_transcript := lift (getitem results 1) in
  do! rows := lift (project video_uri results_labels results_transcript) in
  append_rows (map RowOfLabel (fst rows)) (map RowOfTranscript (snd rows)).

(** [process_video(event, context)], the entry point. *)
Definition process_video (event : gmap string string) : M W unit :=
  do! bucket := lift (dict_getitem event "bucket") in
  do! name := lift (dict_getitem event "name") in
  let input_uri := "gs://" +:+ bucket +:+ "/" +:+ name in
  do! results := analyze_video event in
  do! results0 := lift (getitem results 0) in
  print_video_labels results0 ;;!
  do! results1 := lift (getitem results 1) in
  print_video_speech results1 default_min_confidence ;;!
  create_bigquery_tables ;;!
  store_results_in_bigquery input_uri results.

End Handler.

(** ** A store and a service to run the handler against

    The store keeps its tables in a map: a table is found exactly when a
    create put it there.  The annotation service and the appends answer as
    scripted, so that each of their failures can be played. *)

Module Sim.

Record t : Type := {
  tables : gmap (string * string) (list SchemaField);
  get_fault : option exn;
  annotation : Result (list VideoAnnotationResults.t);
  insert_labels : Result (list RowError);
  insert_transcript : Result (list RowError);
  inserted : list (TableReference * list Row) }.

Definition key (ref : TableReference) : string * string :=
  (dataset_id ref, table_id ref).

Definition with_tables (w : t) (m : gmap (string * string) (list SchemaField)) : t :=
  {| tables := m; get_fault := get_fault w; annotation := annotation w;
     insert_labels := insert_labels w; insert_transcript := insert_transcript w;
     inserted := inserted w |}.

Definition with_inserted (w : t) (l : list (TableReference * list Row)) : t :=
  {| tables := tables w; get_fault := get_fault w; annotation := annotation w;
     insert_labels := insert_labels w; insert_transcript := insert_transcript w;
     inserted := l |}.

Definition get_table (ref : TableReference) (w : t) : Result Table.t * t :=
  match get_fault w with
  | Some e => (Raise e, w)
  | None =>
      match tables w !! key ref with
      | Some schema => (Ok {| Table.reference := ref; Table.schema := schema |}, w)
      | None => (Raise (NotFound ("404 Not found: Table " +:+ table_id ref)), w)
      end
  end.

Definition create_table (table : Table.t) (w : t) : Result Table.t * t :=
  match tables w !! key (Table.reference table) with
  | Some _ =>
      (Raise (GoogleCloudError "Conflict"
                ("409 Already Exists: Table " +:+ table_id (Table.reference table))), w)
  | None =>
      (Ok table,
       with_tables w (<[key (Table.reference table) := Table.schema table]> (tables w)))
  end.

Definition insert_rows_json (ref : TableReference) (rows : list Row) (w : t)
  : Result (list RowError) * t :=
  let answer :=
    if String.eqb (table_id ref) TABLE_ID_LABELS then insert_labels w
    else insert_transcript w in
  match answer with
  | Ok [] => (answer, with_inserted w (inserted w ++ [(ref, rows)]))
  | _ => (answer, w)
  end.

Definition cloud : Cloud t :=
  Build_Cloud t (fun _ w => (annotation w, w))
              get_table create_table insert_rows_json.

Definition show_float (x : float) : string :=
  match Qnum (this x) with
  | Z.neg p => "-" +:+ Str.of_nat (Pos.to_nat p)
  | n => Str.of_nat (Z.to_nat n)
  end +:+ "/" +:+ Str.of_nat (Pos.to_nat (Qden (this x))).

(** A runtime for the examples; it shows a float as its fraction, which
    is not what Python prints. *)
Definition runtime : Runtime :=
  {| format_percent := fun x => show_float (x * Q2Qc 100)%Qc +:+ "%";
     format_fixed := show_float;
     total_seconds := fun td => Q2Qc (td # 1000000);
     repr_event := fun event =>
       Str.join ", " (map (fun kv => fst kv +:+ ": " +:+ snd kv) (map_to_list event));
     repr_errors := fun errs =>
       Str.join ", " (map (fun e => Str.of_nat (index e) +:+ ": "
                                   +:+ Str.join "; " (errors e)) errs) |}.

Definition empty (answer : Result (list VideoAnnotationResults.t)) : t :=
  {| tables := ∅; get_fault := None; annotation := answer;
     insert_labels := Ok []; insert_transcript := Ok []; inserted := [] |}.

Definition with_inserts (w : t) (l tr : Result (list RowError)) : t :=
  {| tables := tables w; get_fault := get_fault w; annotation := annotation w;
     insert_labels := l; insert_transcript := tr; inserted := inserted w |}.

Definition unavailable : exn :=
  GoogleCloudError "ServiceUnavailable" "503 Service Unavailable".

Definition start (w : t) : State t :=
  {| stdout := []; calls := []; world := w |}.

End Sim.

(** ** Vocabulary of the statements *)

(** The (label, segment) pairs of a list of annotations, in input order. *)
Definition segment_pairs (annotations : list LabelAnnotation.t)
  : list (LabelAnnotation.t * LabelSegment.t) :=
  flat_map (fun la => map (pair la) (LabelAnnotation.segments la)) annotations.

(** [row] is the row of the first alternative of [t]. *)
Definition transcript_row_of (file_name : string) (t : SpeechTranscription.t)
           (row : TranscriptRow.t) : Prop :=
  ∃ a rest,
    SpeechTranscription.alternatives t = a :: rest
    ∧ row = {| TranscriptRow.file_name := file_name;
               TranscriptRow.transcript := SpeechRecognitionAlternative.transcript a;
               TranscriptRow.confidence := SpeechRecognitionAlternative.confidence a |}.

Definition has_alternative (t : SpeechTranscription.t) : Prop :=
  SpeechTranscription.alternatives t ≠ [].

(** A row carries the given file name and, for a label row, the given
    uri of the video. *)
Definition row_named (file_name video_uri : string) (r : Row) : Prop :=
  match r with
  | RowOfLabel r => LabelRow.file_name r = file_name ∧ LabelRow.file_uri r = video_uri
  | RowOfTranscript r => TranscriptRow.file_name r = file_name
  end.

Definition is_insert_of (P : Row → Prop) (c : Call) : Prop :=
  match c with
  | CallInsertRowsJson _ rows => Forall P rows
  | _ => False
  end.

Definition is_insert_into (ref : TableReference) (c : Call) : Prop :=
  match c with
  | CallInsertRowsJson ref' _ => ref' = ref
  | _ => False
  end.

(** The row-append step, started in the state [w] of the services, meets a
    store-level failure [e]: one of its two appends raises [e], an instance
    of [GoogleCloudError]. *)
Definition store_failure {W} (cloud : Cloud W) (rows_l rows_t : list Row)
           (w : W) (e : exn) : Prop :=
  isinstance_GoogleCloudError e = true
  ∧ (fst (insert_rows_json cloud table_ref_labels rows_l w) = Raise e
     ∨ ∃ errs,
         fst (insert_rows_json cloud table_ref_labels rows_l w) = Ok errs
         ∧ fst (insert_rows_json cloud table_ref_transcript rows_t
                  (snd (insert_rows_json cloud table_ref_labels rows_l w)))
           = Raise e).

(** Comparisons of the elements of a list by a float key. *)
Definition key_lt {A} (key : A → float) (a b : A) : bool :=
  float_lt (key a) (key b).

Definition key_le {A} (key : A → float) (a b : A) : Prop := (key a <= key b)%Qc.

Definition key_ge {A} (key : A → float) (a b : A) : Prop := (key b <= key a)%Qc.

Definition has_key {A} (key : A → float) (c : float) (a : A) : bool :=
  bool_decide (key a = c).

(** The state after the lines have been printed. *)
Definition printed {W} (s : State W) (lines : list string) : State W :=
  {| stdout := stdout s ++ lines; calls := calls s; world := world s |}.

Definition has_segment (label : LabelAnnotation.t) : Prop :=
  LabelAnnotation.segments label ≠ [].

(** The confidence of the first segment of a label that has one. *)
Definition first_confidence (label : LabelAnnotation.t) : float :=
  match LabelAnnotation.segments label with
  | segment :: _ => LabelSegment.confidence segment
  | [] => Q2Qc 0
  end.

(** The first alternative reaches the threshold. *)
Definition reaches (min_confidence : float) (t : SpeechTranscription.t) : bool :=
  match SpeechTranscription.alternatives t with
  | a :: _ => float_le min_confidence (SpeechRecognitionAlternative.confidence a)
  | [] => false
  end.

(** The line of the first alternative of a transcription that has one. *)
Definition transcription_line (rt : Runtime) (t : SpeechTranscription.t) : string :=
  match SpeechTranscription.alternatives t with
  | a :: _ => speech_line rt a
  | [] => EmptyString
  end.

(** What one block of the provisioner does, by the outcome of its fetch:
    found, [NotFound], or any other exception. *)
Definition fetch_decides {W} (cloud : Cloud W) (ref : TableReference)
           (schema : list SchemaField) (s : State W) : Prop :=
  let out := create_table_unless_found cloud ref schema s in
  let table := {| Table.reference := ref; Table.schema := schema |} in
  match get_table cloud ref (world s) with
  | (Ok _, w1) =>
      out = (Ok tt,
             {| stdout := stdout s ++ ["Table " +:+ table_id ref
                                       +:+ " already exists. Skipping creation."];
                calls := calls s ++ [CallGetTable ref];
                world := w1 |})
  | (Raise e, w1) =>
      if isinstance_NotFound e
      then calls (snd out) = calls s ++ [CallGetTable ref; CallCreateTable table]
           ∧ match create_table cloud table w1 with
             | (Ok created, w2) =>
                 fst out = Ok tt
                 ∧ world (snd out) = w2
                 ∧ stdout (snd out)
                   = stdout s ++ ["Table " +:+ table_id (Table.reference created)
                                  +:+ " created."]
             | (Raise e', w2) =>
                 fst out = Raise e' ∧ world (snd out) = w2
                 ∧ stdout (snd out) = stdout s
             end
      else out = (Raise e,
                  {| stdout := stdout s;
                     calls := calls s ++ [CallGetTable ref];
                     world := w1 |})
  end.

(** ** Sample results

    Three labels (two of them with the same first confidence, one with two
    segments) and three transcriptions, at confidences 0.8, 0.75 and 0.9. *)

Module Demo.

Definition seg (c : Q) (t1 t2 : Z) : LabelSegment.t :=
  {| LabelSegment.segment :=
       {| VideoSegment.start_time_offset := t1;
          VideoSegment.end_time_offset := t2 |};
     LabelSegment.confidence := Q2Qc c |}.

Definition lab (d : string) (categories : list string)
           (segs : list LabelSegment.t) : LabelAnnotation.t :=
  {| LabelAnnotation.entity := {| Entity.description := d |};
     LabelAnnotation.category_entities := map Entity.Build_t categories;
     LabelAnnotation.segments := segs |}.

Definition alt (text : string) (c : Q) : SpeechRecognitionAlternative.t :=
  {| SpeechRecognitionAlternative.transcript := text;
     SpeechRecognitionAlternative.confidence := Q2Qc c |}.

Definition said (alts : list SpeechRecognitionAlternative.t) : SpeechTranscription.t :=
  {| SpeechTranscription.alternatives := alts |}.

Definition cat : LabelAnnotation.t := lab "Cat" ["Animal"] [seg (92 # 100) 0 5000000].
Definition dog : LabelAnnotation.t :=
  lab "Dog" [] [seg (95 # 100) 0 1000000; seg (1 # 2) 3000000 4000000].
Definition cow : LabelAnnotation.t := lab "Cow" ["Animal"; "Farm"] [seg (92 # 100) 0 5000000].

Definition labels : VideoAnnotationResults.t :=
  {| VideoAnnotationResults.segment_label_annotations := [cat; dog; cow];
     VideoAnnotationResults.speech_transcriptions := [] |}.

Definition speech : VideoAnnotationResults.t :=
  {| VideoAnnotationResults.segment_label_annotations := [];
     VideoAnnotationResults.speech_transcriptions :=
       [ said [alt "  hello " (8 # 10)];
         said [alt "hello" (3 # 4)];
         said [alt "yes sir" (9 # 10); alt "yes, sir" (1 # 2)] ] |}.

Definition results : list VideoAnnotationResults.t := [labels; speech].

Definition event : gmap string string :=
  {[ "bucket" := "b"; "name" := "clip.mp4" ]}.

Definition video_uri : string := "gs://b/clip.mp4".

(** The rows of the sample results. *)
Definition rows : list LabelRow.t * list TranscriptRow.t :=
  match project Sim.runtime video_uri labels speech with
  | Ok p => p
  | Raise _ => ([], [])
  end.

(** The store is unavailable for the appends. *)
Definition unavailable_store : State Sim.t :=
  Sim.start (Sim.with_inserts (Sim.empty (Ok results))
               (Raise Sim.unavailable) (Ok [])).

End Demo.



(** ** Vocabulary of the further properties *)

(** A call of the provisioner: a fetch or a create of one of the two
    tables, the create with the table's schema. *)
Definition is_provisioning_call (c : Call) : Prop :=
  match c with
  | CallGetTable ref => ref = table_ref_labels ∨ ref = table_ref_transcript
  | CallCreateTable table =>
      table = {| Table.reference := table_ref_labels; Table.schema := schema_labels |}
      ∨ table = {| Table.reference := table_ref_transcript;
                   Table.schema := schema_transcript |}
  | _ => False
  end.

(** An append to one of the two tables. *)
Definition is_append_call (c : Call) : Prop :=
  match c with
  | CallInsertRowsJson ref _ => ref = table_ref_labels ∨ ref = table_ref_transcript
  | _ => False
  end.

(** The key the handler misses first in an event. *)
Definition missing_key (event : gmap string string) : string :=
  match event !! "bucket" with
  | None => "bucket"
  | Some _ => "name"
  end.

(** ** Further scenarios *)

Module Scenario.

(** An event without its object name. *)
Definition nameless : gmap string string := {[ "bucket" := "b" ]}.

(** A label without segments and a transcription without alternatives. *)
Definition bare_label : LabelAnnotation.t := Demo.lab "Blank" [] [].

Definition bare_labels : VideoAnnotationResults.t :=
  {| VideoAnnotationResults.segment_label_annotations := [Demo.cat; bare_label];
     VideoAnnotationResults.speech_transcriptions := [] |}.

Definition bare_speech : VideoAnnotationResults.t :=
  {| VideoAnnotationResults.segment_label_annotations := [];
     VideoAnnotationResults.speech_transcriptions :=
       [Demo.said [Demo.alt "hello" (9 # 10)]; Demo.said []] |}.

(** The rows of the sample results for an object inside a folder. *)
Definition nested_rows : list LabelRow.t * list TranscriptRow.t :=
  match project Sim.runtime "gs://b/dir/clip.mp4" Demo.labels Demo.speech with
  | Ok p => p
  | Raise _ => ([], [])
  end.

(** The service answers with the sample results; the store is empty and
    accepts every row. *)
Definition fresh : State Sim.t := Sim.start (Sim.empty (Ok Demo.results)).

(** An exception outside the [GoogleCloudError] hierarchy. *)
Definition timeout : exn := PyException "RetryError" "Timeout of 600.0s exceeded".

(** The appends time out. *)
Definition timing_out : State Sim.t :=
  Sim.start (Sim.with_inserts (Sim.empty (Ok Demo.results)) (Raise timeout) (Ok [])).

(** The fetch reports the label table as missing although it exists: the
    create that follows conflicts. *)
Definition racing : State Sim.t :=
  Sim.start
    {| Sim.tables := {[ Sim.key table_ref_labels := schema_labels ]};
       Sim.get_fault := Some (NotFound "404 Not found: Table annotation_labels");
       Sim.annotation := Ok Demo.results;
       Sim.insert_labels := Ok [];
       Sim.insert_transcript := Ok [];
       Sim.inserted := [] |}.

(** The label table exists, with one column only; the transcript table
    does not exist. *)
Definition half_provisioned : State Sim.t :=
  Sim.start
    {| Sim.tables :=
         {[ Sim.key table_ref_labels :=
              [ {| field_name := "file_name"; field_type := "STRING";
                   field_mode := "REQUIRED" |} ] ]};
       Sim.get_fault := None;
       Sim.annotation := Ok Demo.results;
       Sim.insert_labels := Ok [];
       Sim.insert_transcript := Ok [];
       Sim.inserted := [] |}.

(** The store rejects the second label row and accepts the transcript
    rows. *)
Definition rejected : list RowError :=
  [ {| index := 1; errors := ["no such field: label"] |} ].

Definition rejecting : State Sim.t :=
  Sim.start (Sim.with_inserts (Sim.empty (Ok Demo.results)) (Ok rejected) (Ok [])).

(** A failure to refresh the credentials: an authorization failure whose
    class is outside the [GoogleCloudError] hierarchy. *)
Definition refresh_error : exn :=
  PyException "RefreshError" "invalid_grant: Token has been expired or revoked.".

(** The label rows are accepted; the credentials expire before the
    transcript rows are appended. *)
Definition expiring : State Sim.t :=
  Sim.start (Sim.with_inserts (Sim.empty (Ok Demo.results))
               (Ok []) (Raise refresh_error)).

(** The fetch is refused. *)
Definition forbidden : exn := GoogleCloudError "Forbidden" "403 Access Denied".

Definition refusing : State Sim.t :=
  Sim.start
    {| Sim.tables := ∅;
       Sim.get_fault := Some forbidden;
       Sim.annotation := Ok Demo.results;
       Sim.insert_labels := Ok [];
       Sim.insert_transcript := Ok [];
       Sim.inserted := [] |}.

End Scenario.
(** * Properties *)

(** ** Indexing and splitting *)

Lemma getitem_0_cons {A} (x : A) (l : list A) : getitem (x :: l) 0 = Ok x.
Proof.
  unfold getitem. cbn [length].
  replace (0 <? 0)%Z with false by reflexivity.
  replace ((0 <=? 0)%Z && (0 <? Z.of_nat (S (length l)))%Z) with true.
  - reflexivity.
  - symmetry. apply andb_true_intro. split; [reflexivity | apply Z.ltb_lt; lia].
Qed.

Lemma getitem_0_nil {A} : getitem (@nil A) 0 = Raise IndexError.
Proof. reflexivity. Qed.

Lemma getitem_1_cons {A} (x y : A) (l : list A) : getitem (x :: y :: l) 1 = Ok y.
Proof.
  unfold getitem. cbn [length].
  replace (1 <? 0)%Z with false by reflexivity.
  replace ((0 <=? 1)%Z && (1 <? Z.of_nat (S (S (length l))))%Z) with true.
  - reflexivity.
  - symmetry. apply andb_true_intro. split; [reflexivity | apply Z.ltb_lt; lia].
Qed.

Lemma getitem_last {A} (l : list A) (x : A) : getitem (l ++ [x]) (-1) = Ok x.
Proof.
  unfold getitem. rewrite length_app. cbn [length].
  replace (-1 <? 0)%Z with true by reflexivity.
  replace (-1 + Z.of_nat (length l + 1))%Z with (Z.of_nat (length l)) by lia.
  replace ((0 <=? Z.of_nat (length l))%Z
           && (Z.of_nat (length l) <? Z.of_nat (length l + 1))%Z) with true.
  - rewrite Nat2Z.id. rewrite lookup_app_r by lia.
    replace (length l - length l) with 0 by lia. reflexivity.
  - symmetry. apply andb_true_intro.
    split; [apply Z.leb_le | apply Z.ltb_lt]; lia.
Qed.

Lemma split_not_nil (sep : ascii) (s : string) :
  ∃ w ws, Str.split sep s = w :: ws.
Proof.
  induction s as [|c s IH]; cbn [Str.split].
  - eauto.
  - destruct (Ascii.eqb c sep); [eauto|].
    destruct (Str.split sep s); eauto.
Qed.

(** Splitting distributes over a separator. *)
Lemma split_app (sep : ascii) (pre post : string) :
  Str.split sep (pre +:+ String sep post)
  = (Str.split sep pre ++ Str.split sep post)%list.
Proof.
  induction pre as [|c pre IH]; simpl.
  - rewrite Ascii.eqb_refl. reflexivity.
  - destruct (Ascii.eqb c sep).
    + rewrite IH. reflexivity.
    + rewrite IH. destruct (split_not_nil sep pre) as (w & ws & ->).
      reflexivity.
Qed.

Lemma split_lacks (sep : ascii) (s : string) :
  Str.lacks sep s = true → Str.split sep s = [s].
Proof.
  induction s as [|c s IH]; cbn [Str.lacks Str.split]; [reflexivity|].
  intros [Hc Hs]%andb_prop. apply negb_true_iff in Hc.
  rewrite Hc, (IH Hs). reflexivity.
Qed.

(** The first piece is what stands before the first separator. *)
Lemma split_first (sep : ascii) (stem rest : string) :
  Str.lacks sep stem = true →
  getitem (Str.split sep (stem +:+ String sep rest)) 0 = Ok stem.
Proof.
  intros H. rewrite split_app, (split_lacks _ _ H). apply getitem_0_cons.
Qed.

(** The last piece is what stands after the last separator. *)
Lemma split_last (sep : ascii) (pre post : string) :
  Str.lacks sep post = true →
  getitem (Str.split sep (pre +:+ String sep post)) (-1) = Ok post.
Proof.
  intros H. rewrite split_app, (split_lacks _ _ H). apply getitem_last.
Qed.

(** ** The request builder *)

(** C1: for an event whose object name is [stem.rest] with no dot in
    [stem], the request built has input_uri [gs://bucket/name] and
    output_uri [gs://outputbucket-cloud9/stem.json], and it is the request
    [analyze_video] submits to the annotation service. *)
Theorem build_request_uris {W} (cloud : Cloud W) (rt : Runtime)
        (event : gmap string string) (bucket stem rest : string) (s : State W) :
  event !! "bucket" = Some bucket →
  event !! "name" = Some (stem +:+ "." +:+ rest) →
  Str.lacks "."%char stem = true →
  ∃ request,
    build_request event = Ok request
    ∧ Request.input_uri request = "gs://" +:+ bucket +:+ "/" +:+ (stem +:+ "." +:+ rest)
    ∧ Request.output_uri request = "gs://outputbucket-cloud9/" +:+ stem +:+ ".json"
    ∧ calls (snd (analyze_video cloud rt event s))
      = (calls s ++ [CallAnnotateVideo request])%list.
Proof.
  intros Hb Hn Hstem.
  unfold analyze_video, build_request, dict_getitem.
  rewrite Hb, Hn. cbn [rbind].
  change (stem +:+ "." +:+ rest) with (stem +:+ String "."%char rest).
  rewrite (split_first _ _ _ Hstem). cbn [rbind].
  eexists. split; [reflexivity|]. split; [reflexivity|]. split; [reflexivity|].
  unfold bind, print, lift, call, ret. cbn.
  destruct (annotate_video cloud _ (world s)) as [[r|e] w]; reflexivity.
Qed.

(** The event of the scenario: bucket [b], object [clip.mp4]. *)
Lemma build_request_uris_clip :
  ∃ request,
    build_request {[ "bucket" := "b"; "name" := "clip.mp4" ]} = Ok request
    ∧ Request.input_uri request = "gs://b/clip.mp4"
    ∧ Request.output_uri request = "gs://outputbucket-cloud9/clip.json"
    ∧ calls (snd (analyze_video Sim.cloud Sim.runtime
                    {[ "bucket" := "b"; "name" := "clip.mp4" ]}
                    (Sim.start (Sim.empty (Ok [])))))
      = [CallAnnotateVideo request].
Proof.
  apply (build_request_uris Sim.cloud Sim.runtime
           {[ "bucket" := "b"; "name" := "clip.mp4" ]} "b" "clip" "mp4"
           (Sim.start (Sim.empty (Ok [])))); reflexivity.
Defined.

(** ** The projection of the results to rows *)

Lemma fold_left_snoc {A B} (g : A → B) (l : list A) (acc : list B) :
  fold_left (fun (rows : list B) x => (rows ++ [g x])%list) l acc
  = (acc ++ map g l)%list.
Proof.
  revert acc. induction l as [|x l IH]; intros acc; cbn [fold_left map].
  - symmetry. apply app_nil_r.
  - rewrite IH, <- app_assoc. reflexivity.
Qed.

Lemma fold_left_nested {A B C} (inner : A → list B) (g : A → B → C)
      (l : list A) (acc : list C) :
  fold_left
    (fun (rows : list C) a =>
       fold_left (fun (rows : list C) b => (rows ++ [g a b])%list) (inner a) rows)
    l acc
  = (acc ++ flat_map (fun a => map (g a) (inner a)) l)%list.
Proof.
  revert acc. induction l as [|a l IH]; intros acc; cbn [fold_left flat_map].
  - symmetry. apply app_nil_r.
  - rewrite IH, fold_left_snoc, <- app_assoc. reflexivity.
Qed.

Lemma transcript_row_inv (file_name : string) (t : SpeechTranscription.t)
      (row : TranscriptRow.t) :
  transcript_row file_name t = Ok row → transcript_row_of file_name t row.
Proof.
  unfold transcript_row, transcript_row_of.
  destruct (SpeechTranscription.alternatives t) as [|a rest].
  - rewrite getitem_0_nil. discriminate.
  - rewrite getitem_0_cons. cbn [rbind]. intros [= <-]. eauto.
Qed.

Lemma transcript_row_total (file_name : string) (t : SpeechTranscription.t) :
  has_alternative t → ∃ row, transcript_row file_name t = Ok row.
Proof.
  unfold transcript_row, has_alternative.
  destruct (SpeechTranscription.alternatives t) as [|a rest]; [congruence|].
  intros _. rewrite getitem_0_cons. cbn [rbind]. eauto.
Qed.

Lemma transcript_loop_inv (file_name : string) (l : list SpeechTranscription.t)
      (acc out : list TranscriptRow.t) :
  Py.foldl
    (fun (rows : list TranscriptRow.t) transcription =>
       try! row := transcript_row file_name transcription in
       Ok (rows ++ [row])%list) l acc = Ok out →
  ∃ rows, out = (acc ++ rows)%list ∧ Forall2 (transcript_row_of file_name) l rows.
Proof.
  revert acc. induction l as [|t l IH]; intros acc; cbn [Py.foldl].
  - intros [= <-]. exists []. split; [symmetry; apply app_nil_r | constructor].
  - destruct (transcript_row file_name t) as [row|e] eqn:Hrow; cbn [rbind];
      [|discriminate].
    intros (rows & -> & Hrows)%IH. exists (row :: rows). split.
    + rewrite <- app_assoc. reflexivity.
    + constructor; [apply transcript_row_inv, Hrow | exact Hrows].
Qed.

Lemma transcript_loop_total (file_name : string) (l : list SpeechTranscription.t)
      (acc : list TranscriptRow.t) :
  Forall has_alternative l →
  ∃ out,
    Py.foldl
      (fun (rows : list TranscriptRow.t) transcription =>
         try! row := transcript_row file_name transcription in
         Ok (rows ++ [row])%list) l acc = Ok out.
Proof.
  intros Hl. revert acc. induction Hl as [|t l Ht _ IH]; intros acc; cbn [Py.foldl].
  - eauto.
  - destruct (transcript_row_total file_name t Ht) as [row ->]. cbn [rbind].
    apply IH.
Qed.

Lemma file_name_total (video_uri : string) :
  ∃ file_name, getitem (Str.split "/"%char video_uri) (-1) = Ok file_name.
Proof.
  destruct (split_not_nil "/"%char video_uri) as (w & ws & ->).
  destruct (exists_last (l := w :: ws)) as (l' & x & ->); [discriminate|].
  exists x. apply getitem_last.
Qed.

(** What [project] returns when it returns. *)
Lemma project_inv (rt : Runtime) (video_uri : string)
      (rl rtr : VideoAnnotationResults.t)
      (lrows : list LabelRow.t) (trows : list TranscriptRow.t) :
  project rt video_uri rl rtr = Ok (lrows, trows) →
  ∃ file_name,
    getitem (Str.split "/"%char video_uri) (-1) = Ok file_name
    ∧ lrows = flat_map
                (fun la => map (label_row rt file_name video_uri la)
                               (LabelAnnotation.segments la))
                (VideoAnnotationResults.segment_label_annotations rl)
    ∧ Forall2 (transcript_row_of file_name)
              (VideoAnnotationResults.speech_transcriptions rtr) trows.
Proof.
  unfold project.
  destruct (getitem (Str.split "/"%char video_uri) (-1)) as [file_name|e];
    cbn [rbind]; [|discriminate].
  rewrite fold_left_nested.
  destruct (Py.foldl _ _ _) as [out|e] eqn:Hloop; cbn [rbind]; [|discriminate].
  intros [= <- <-]. exists file_name.
  apply transcript_loop_inv in Hloop as (rows & -> & Hrows).
  auto.
Qed.

(** [project] returns when every transcription has an alternative. *)
Lemma project_total (rt : Runtime) (video_uri : string)
      (rl rtr : VideoAnnotationResults.t) :
  Forall has_alternative (VideoAnnotationResults.speech_transcriptions rtr) →
  ∃ lrows trows, project rt video_uri rl rtr = Ok (lrows, trows).
Proof.
  intros Halt. unfold project.
  destruct (file_name_total video_uri) as [file_name ->]. cbn [rbind].
  destruct (transcript_loop_total file_name _ [] Halt) as [out ->]. cbn [rbind].
  eauto.
Qed.

Lemma length_flat_map_segments {B} (g : LabelAnnotation.t → LabelSegment.t → B)
      (l : list LabelAnnotation.t) :
  length (flat_map (fun la => map (g la) (LabelAnnotation.segments la)) l)
  = sum_list (map (fun la => length (LabelAnnotation.segments la)) l).
Proof.
  induction l as [|la l IH]; cbn [flat_map map sum_list sum_list_with].
  - reflexivity.
  - rewrite length_app, length_map, IH. reflexivity.
Qed.

Lemma Forall2_flat_map_segments {B} (g : LabelAnnotation.t → LabelSegment.t → B)
      (R : LabelAnnotation.t * LabelSegment.t → B → Prop)
      (l : list LabelAnnotation.t) :
  (∀ la seg, R (la, seg) (g la seg)) →
  Forall2 R (segment_pairs l)
          (flat_map (fun la => map (g la) (LabelAnnotation.segments la)) l).
Proof.
  intros HR. unfold segment_pairs.
  induction l as [|la l IH]; cbn [flat_map]; [constructor|].
  apply Forall2_app; [|exact IH].
  induction (LabelAnnotation.segments la) as [|seg segs IHs]; cbn [map];
    constructor; auto.
Qed.

(** C3: when every transcription has an alternative, the projection
    returns as many label rows as there are segments over all the label
    annotations, one per (label, segment) pair and in that order, each with
    the confidence and the times of its segment; and one transcript row per
    transcription, each with the text and the confidence of the
    transcription's first alternative. *)
Theorem project_rows (rt : Runtime) (video_uri : string)
        (rl rtr : VideoAnnotationResults.t) :
  Forall has_alternative (VideoAnnotationResults.speech_transcriptions rtr) →
  ∃ lrows trows,
    project rt video_uri rl rtr = Ok (lrows, trows)
    ∧ length lrows
      = sum_list (map (fun la => length (LabelAnnotation.segments la))
                      (VideoAnnotationResults.segment_label_annotations rl))
    ∧ Forall2
        (fun (p : LabelAnnotation.t * LabelSegment.t) row =>
           LabelRow.label row = Entity.description (LabelAnnotation.entity (fst p))
           ∧ LabelRow.confidence row = LabelSegment.confidence (snd p)
           ∧ LabelRow.start_time row
             = total_seconds rt (VideoSegment.start_time_offset
                                   (LabelSegment.segment (snd p)))
           ∧ LabelRow.end_time row
             = total_seconds rt (VideoSegment.end_time_offset
                                   (LabelSegment.segment (snd p))))
        (segment_pairs (VideoAnnotationResults.segment_label_annotations rl)) lrows
    ∧ length trows = length (VideoAnnotationResults.speech_transcriptions rtr)
    ∧ Forall2
        (fun t row =>
           ∃ a rest,
             SpeechTranscription.alternatives t = a :: rest
             ∧ TranscriptRow.transcript row = SpeechRecognitionAlternative.transcript a
             ∧ TranscriptRow.confidence row = SpeechRecognitionAlternative.confidence a)
        (VideoAnnotationResults.speech_transcriptions rtr) trows.
Proof.
  intros Halt.
  destruct (project_total rt video_uri rl rtr Halt) as (lrows & trows & Hp).
  exists lrows, trows. split; [exact Hp|].
  apply project_inv in Hp as (file_name & _ & -> & Htr).
  split; [apply length_flat_map_segments|].
  split; [apply Forall2_flat_map_segments; intros la seg; cbn; auto|].
  split; [symmetry; eapply Forall2_length, Htr|].
  eapply Forall2_impl; [exact Htr|].
  intros t row (a & rest & Ha & ->). exists a, rest. auto.
Qed.

(** The sample results give four label rows and three transcript rows. *)
Lemma project_rows_demo :
  ∃ lrows trows,
    project Sim.runtime "gs://b/clip.mp4" Demo.labels Demo.speech = Ok (lrows, trows)
    ∧ length lrows = 4
    ∧ length trows = 3.
Proof.
  destruct (project_rows Sim.runtime "gs://b/clip.mp4" Demo.labels Demo.speech)
    as (lrows & trows & Hp & Hl & _ & Ht & _).
  - repeat constructor; discriminate.
  - exists lrows, trows. auto.
Defined.

(** A transcription without alternatives makes the projection raise. *)
Lemma project_no_alternative :
  project Sim.runtime Demo.video_uri Demo.labels
          {| VideoAnnotationResults.segment_label_annotations := [];
             VideoAnnotationResults.speech_transcriptions := [Demo.said []] |}
  = Raise IndexError.
Proof. vm_compute. reflexivity. Qed.

(** ** The two appends *)

Ltac run := unfold bind, call, print, lift, ret, raise, try_except; cbn.

Section Appends.
Context {W : Type} (cloud : Cloud W) (rt : Runtime).

(** The label append raises: the transcript append is not reached. *)
Lemma append_rows_labels_raise (rows_l rows_t : list Row) (s : State W)
      (e : exn) (w : W) :
  insert_rows_json cloud table_ref_labels rows_l (world s) = (Raise e, w) →
  append_rows cloud rt rows_l rows_t s
  = if isinstance_GoogleCloudError e
    then (Ok tt,
          {| stdout := stdout s ++ [error_line e];
             calls := calls s ++ [CallInsertRowsJson table_ref_labels rows_l];
             world := w |})
    else (Raise e,
          {| stdout := stdout s;
             calls := calls s ++ [CallInsertRowsJson table_ref_labels rows_l];
             world := w |}).
Proof.
  intros H. unfold append_rows. run. rewrite H.
  destruct (isinstance_GoogleCloudError e); reflexivity.
Qed.

(** The label append returns its list of row errors: the transcript
    append is issued next, whatever that list holds. *)
Lemma append_rows_labels_return (rows_l rows_t : list Row) (s : State W)
      (errs_l : list RowError) (w1 : W) (r_t : Result (list RowError)) (w2 : W) :
  insert_rows_json cloud table_ref_labels rows_l (world s) = (Ok errs_l, w1) →
  insert_rows_json cloud table_ref_transcript rows_t w1 = (r_t, w2) →
  append_rows cloud rt rows_l rows_t s
  = let trace := (calls s ++ [CallInsertRowsJson table_ref_labels rows_l])
                   ++ [CallInsertRowsJson table_ref_transcript rows_t] in
    let out := stdout s ++ [insert_report rt "labels" errs_l] in
    match r_t with
    | Ok errs_t =>
        (Ok tt, {| stdout := out ++ [insert_report rt "transcript" errs_t];
                   calls := trace; world := w2 |})
    | Raise e =>
        if isinstance_GoogleCloudError e
        then (Ok tt, {| stdout := out ++ [error_line e]; calls := trace; world := w2 |})
        else (Raise e, {| stdout := out; calls := trace; world := w2 |})
    end.
Proof.
  intros H1 H2. unfold append_rows. run. rewrite H1. cbn. rewrite H2.
  destruct r_t as [errs_t|e]; [reflexivity|].
  destruct (isinstance_GoogleCloudError e); reflexivity.
Qed.

(** [append_rows] never raises an instance of [GoogleCloudError]. *)
Lemma append_rows_result (rows_l rows_t : list Row) (s : State W) :
  match fst (append_rows cloud rt rows_l rows_t s) with
  | Ok _ => True
  | Raise e => isinstance_GoogleCloudError e = false
  end.
Proof.
  destruct (insert_rows_json cloud table_ref_labels rows_l (world s))
    as [[errs_l|e] w1] eqn:H1.
  - destruct (insert_rows_json cloud table_ref_transcript rows_t w1)
      as [r_t w2] eqn:H2.
    rewrite (append_rows_labels_return _ _ _ _ _ _ _ H1 H2).
    destruct r_t as [errs_t|e]; cbn; [exact I|].
    destruct (isinstance_GoogleCloudError e) eqn:He; cbn; auto.
  - rewrite (append_rows_labels_raise _ _ _ _ _ H1).
    destruct (isinstance_GoogleCloudError e) eqn:He; cbn; auto.
Qed.

(** The calls [append_rows] makes: the label append, then at most the
    transcript append. *)
Lemma append_rows_calls (rows_l rows_t : list Row) (s : State W) :
  ∃ trace,
    calls (snd (append_rows cloud rt rows_l rows_t s)) = calls s ++ trace
    ∧ (trace = [CallInsertRowsJson table_ref_labels rows_l]
       ∨ trace = [CallInsertRowsJson table_ref_labels rows_l;
                  CallInsertRowsJson table_ref_transcript rows_t]).
Proof.
  destruct (insert_rows_json cloud table_ref_labels rows_l (world s))
    as [[errs_l|e] w1] eqn:H1.
  - destruct (insert_rows_json cloud table_ref_transcript rows_t w1)
      as [r_t w2] eqn:H2.
    rewrite (append_rows_labels_return _ _ _ _ _ _ _ H1 H2).
    eexists. split; [|right; reflexivity].
    destruct r_t as [errs_t|e]; [|destruct (isinstance_GoogleCloudError e)];
      cbn; rewrite <- app_assoc; reflexivity.
  - rewrite (append_rows_labels_raise _ _ _ _ _ H1).
    eexists. split; [|left; reflexivity].
    destruct (isinstance_GoogleCloudError e); reflexivity.
Qed.

(** [store_results_in_bigquery] once the projection has returned. *)
Lemma store_results_projected (video_uri : string)
      (rl rtr : VideoAnnotationResults.t) (rest : list VideoAnnotationResults.t)
      (lrows : list LabelRow.t) (trows : list TranscriptRow.t) (s : State W) :
  project rt video_uri rl rtr = Ok (lrows, trows) →
  store_results_in_bigquery cloud rt video_uri (rl :: rtr :: rest) s
  = append_rows cloud rt (map RowOfLabel lrows) (map RowOfTranscript trows) s.
Proof.
  intros Hp. unfold store_results_in_bigquery.
  rewrite getitem_0_cons, getitem_1_cons. unfold bind at 1 2 3, lift.
  rewrite Hp. reflexivity.
Qed.

End Appends.

(** C2, as the code has it: the two appends sit in one [try] block that
    catches [GoogleCloudError] only.  When the label append returns its
    list of row errors, empty or not, its outcome is printed and the
    transcript append is issued; that one's outcome is printed when it
    returns, the exception is printed and swallowed when it raises an
    instance of [GoogleCloudError], and any other exception it raises leaves
    the function with nothing printed for the transcript append.  In each of
    these cases the two appends are the only calls made: the label append is
    not undone.  When the label append raises, the transcript append is not
    issued: an instance of [GoogleCloudError] is printed and swallowed, any
    other exception leaves the function with nothing printed. *)
Theorem append_rows_outcomes {W} (cloud : Cloud W) (rt : Runtime)
        (rows_l rows_t : list Row) (s : State W) :
  let out := append_rows cloud rt rows_l rows_t s in
  let call_l := CallInsertRowsJson table_ref_labels rows_l in
  let call_t := CallInsertRowsJson table_ref_transcript rows_t in
  match insert_rows_json cloud table_ref_labels rows_l (world s) with
  | (Ok errs_l, w1) =>
      calls (snd out) = calls s ++ [call_l; call_t]
      ∧ match insert_rows_json cloud table_ref_transcript rows_t w1 with
        | (Ok errs_t, w2) =>
            fst out = Ok tt
            ∧ world (snd out) = w2
            ∧ stdout (snd out)
              = stdout s ++ [insert_report rt "labels" errs_l;
                             insert_report rt "transcript" errs_t]
        | (Raise e, w2) =>
            world (snd out) = w2
            ∧ if isinstance_GoogleCloudError e
              then fst out = Ok tt
                   ∧ stdout (snd out)
                     = stdout s ++ [insert_report rt "labels" errs_l; error_line e]
              else fst out = Raise e
                   ∧ stdout (snd out) = stdout s ++ [insert_report rt "labels" errs_l]
        end
  | (Raise e, w1) =>
      calls (snd out) = calls s ++ [call_l]
      ∧ world (snd out) = w1
      ∧ if isinstance_GoogleCloudError e
        then fst out = Ok tt ∧ stdout (snd out) = stdout s ++ [error_line e]
        else fst out = Raise e ∧ stdout (snd out) = stdout s
  end.
Proof.
  cbv zeta.
  destruct (insert_rows_json cloud table_ref_labels rows_l (world s))
    as [[errs_l|e] w1] eqn:H1.
  - destruct (insert_rows_json cloud table_ref_transcript rows_t w1)
      as [r_t w2] eqn:H2.
    rewrite (append_rows_labels_return cloud rt _ _ _ _ _ _ _ H1 H2).
    destruct r_t as [errs_t|e]; [|destruct (isinstance_GoogleCloudError e)];
      cbn; rewrite <- ?app_assoc; auto.
  - rewrite (append_rows_labels_raise cloud rt _ _ _ _ _ H1).
    destruct (isinstance_GoogleCloudError e); cbn; auto.
Qed.

(** C2, as stated, fails: the store is unavailable when the label rows are
    appended; the exception is swallowed and no append to the transcript
    table is ever issued. *)
Lemma transcript_append_skipped :
  let s := Sim.start (Sim.with_inserts (Sim.empty (Ok Demo.results))
                        (Raise Sim.unavailable) (Ok [])) in
  let out := store_results_in_bigquery Sim.cloud Sim.runtime
               "gs://b/clip.mp4" Demo.results s in
  fst out = Ok tt
  ∧ Exists (is_insert_into table_ref_labels) (calls (snd out))
  ∧ ¬ Exists (is_insert_into table_ref_transcript) (calls (snd out))
  ∧ stdout (snd out) = ["Error inserting rows into BigQuery: 503 Service Unavailable"].
Proof.
  cbv zeta.
  split; [vm_compute; reflexivity|].
  split; [apply Exists_cons_hd; vm_compute; reflexivity|].
  split; [|vm_compute; reflexivity].
  intros H. vm_compute in H.
  inversion H as [c l Hc|c l Hc]; [discriminate Hc | inversion Hc].
Qed.

(** ** The orchestrator *)

Section Orchestrator.
Context {W : Type} (cloud : Cloud W) (rt : Runtime).

Lemma build_request_total (event : gmap string string) (bucket name : string) :
  event !! "bucket" = Some bucket →
  event !! "name" = Some name →
  ∃ request,
    build_request event = Ok request
    ∧ Request.input_uri request = "gs://" +:+ bucket +:+ "/" +:+ name.
Proof.
  intros Hb Hn. unfold build_request, dict_getitem. rewrite Hb, Hn. cbn [rbind].
  destruct (split_not_nil "."%char name) as (w & ws & ->).
  rewrite getitem_0_cons. cbn [rbind]. eauto.
Qed.

(** [analyze_video] prints its two lines and makes one call. *)
Lemma analyze_video_run (event : gmap string string) (request : Request.t)
      (s : State W) :
  build_request event = Ok request →
  analyze_video cloud rt event s
  = let (r, w) := annotate_video cloud request (world s) in
    (r, {| stdout := (stdout s ++ [repr_event rt event])
                       ++ ["Processing video " +:+ dquote
                           +:+ Request.input_uri request +:+ dquote +:+ "..."];
           calls := calls s ++ [CallAnnotateVideo request];
           world := w |}).
Proof.
  intros Hreq. unfold analyze_video. run. rewrite Hreq.
  destruct (annotate_video cloud request (world s)) as [[r|e] w]; reflexivity.
Qed.

(** [process_video] when the steps before the appends return. *)
Lemma process_video_steps (event : gmap string string) (bucket name : string)
      (rl rtr : VideoAnnotationResults.t) (rest : list VideoAnnotationResults.t)
      (s s1 s2 s3 s4 : State W) :
  event !! "bucket" = Some bucket →
  event !! "name" = Some name →
  analyze_video cloud rt event s = (Ok (rl :: rtr :: rest), s1) →
  print_video_labels rt rl s1 = (Ok tt, s2) →
  print_video_speech rt rtr default_min_confidence s2 = (Ok tt, s3) →
  create_bigquery_tables cloud s3 = (Ok tt, s4) →
  process_video cloud rt event s
  = store_results_in_bigquery cloud rt ("gs://" +:+ bucket +:+ "/" +:+ name)
                              (rl :: rtr :: rest) s4.
Proof.
  intros Hb Hn Ha Hl Hs Hc. unfold process_video, dict_getitem.
  rewrite Hb, Hn. unfold bind at 1 2 3, lift at 1 2. rewrite Ha.
  rewrite getitem_0_cons. unfold bind at 1 2, lift at 1. rewrite Hl.
  rewrite getitem_1_cons. unfold bind at 1 2, lift at 1. rewrite Hs.
  unfold bind at 1. rewrite Hc. reflexivity.
Qed.

End Orchestrator.

(** C8: when the call to the annotation service raises, [process_video]
    raises the same exception; it has printed the event and the line that
    announces the processing, and nothing of the two reports; the call to
    the annotation service is the only call made, so no table is fetched or
    created and no row is appended. *)
Theorem annotation_failure_aborts {W} (cloud : Cloud W) (rt : Runtime)
        (event : gmap string string) (bucket name : string)
        (s : State W) (e : exn) (w : W) :
  event !! "bucket" = Some bucket →
  event !! "name" = Some name →
  (∀ request, build_request event = Ok request →
              annotate_video cloud request (world s) = (Raise e, w)) →
  ∃ request,
    build_request event = Ok request
    ∧ process_video cloud rt event s
      = (Raise e,
         {| stdout := stdout s
                        ++ [repr_event rt event;
                            "Processing video " +:+ dquote
                            +:+ ("gs://" +:+ bucket +:+ "/" +:+ name)
                            +:+ dquote +:+ "..."];
            calls := calls s ++ [CallAnnotateVideo request];
            world := w |}).
Proof.
  intros Hb Hn Hfail.
  destruct (build_request_total event bucket name Hb Hn) as (request & Hreq & Huri).
  exists request. split; [exact Hreq|].
  unfold process_video, dict_getitem. rewrite Hb, Hn.
  unfold bind at 1 2 3, lift at 1 2.
  rewrite (analyze_video_run cloud rt event request s Hreq), (Hfail request Hreq).
  rewrite Huri, <- app_assoc. reflexivity.
Qed.

(** The annotation service refuses the sample event: two lines printed, one
    call made, the store untouched. *)
Lemma annotation_failure_aborts_demo :
  let s := Sim.start (Sim.empty (Raise (PyException "PermissionDenied" "403 denied"))) in
  ∃ request,
    build_request Demo.event = Ok request
    ∧ process_video Sim.cloud Sim.runtime Demo.event s
      = (Raise (PyException "PermissionDenied" "403 denied"),
         {| stdout := [repr_event Sim.runtime Demo.event;
                       "Processing video " +:+ dquote +:+ "gs://b/clip.mp4"
                       +:+ dquote +:+ "..."];
            calls := [CallAnnotateVideo request];
            world := world s |}).
Proof.
  cbv zeta.
  apply (annotation_failure_aborts Sim.cloud Sim.runtime Demo.event "b" "clip.mp4"
           (Sim.start (Sim.empty (Raise (PyException "PermissionDenied" "403 denied"))))).
  - reflexivity.
  - reflexivity.
  - intros request _. reflexivity.
Defined.

(** C9, as the code has it: when the steps before the appends return and
    one of the two appends raises an instance [e] of [GoogleCloudError],
    the class the [except] clause names, the row-append step and
    [process_video] both return normally, and the last line printed is the
    one that reports [e]. *)
Theorem store_failure_swallowed {W} (cloud : Cloud W) (rt : Runtime)
        (event : gmap string string) (bucket name : string)
        (rl rtr : VideoAnnotationResults.t) (rest : list VideoAnnotationResults.t)
        (lrows : list LabelRow.t) (trows : list TranscriptRow.t)
        (s s1 s2 s3 s4 : State W) (e : exn) :
  event !! "bucket" = Some bucket →
  event !! "name" = Some name →
  analyze_video cloud rt event s = (Ok (rl :: rtr :: rest), s1) →
  print_video_labels rt rl s1 = (Ok tt, s2) →
  print_video_speech rt rtr default_min_confidence s2 = (Ok tt, s3) →
  create_bigquery_tables cloud s3 = (Ok tt, s4) →
  project rt ("gs://" +:+ bucket +:+ "/" +:+ name) rl rtr = Ok (lrows, trows) →
  store_failure cloud (map RowOfLabel lrows) (map RowOfTranscript trows) (world s4) e →
  fst (append_rows cloud rt (map RowOfLabel lrows) (map RowOfTranscript trows) s4)
  = Ok tt
  ∧ fst (process_video cloud rt event s) = Ok tt
  ∧ last (stdout (snd (process_video cloud rt event s))) = Some (error_line e).
Proof.
  intros Hb Hn Ha Hl Hs Hc Hp (He & Hfail).
  rewrite (process_video_steps cloud rt event bucket name rl rtr rest
             s s1 s2 s3 s4 Hb Hn Ha Hl Hs Hc).
  rewrite (store_results_projected cloud rt _ rl rtr rest lrows trows s4 Hp).
  destruct (insert_rows_json cloud table_ref_labels (map RowOfLabel lrows) (world s4))
    as [r_l w1] eqn:H1.
  destruct Hfail as [Hl1 | (errs & Hl1 & Ht)]; cbn [fst snd] in *; subst r_l.
  - rewrite (append_rows_labels_raise cloud rt _ _ _ _ _ H1), He.
    cbn [fst snd stdout]. rewrite last_snoc. auto.
  - destruct (insert_rows_json cloud table_ref_transcript (map RowOfTranscript trows) w1)
      as [r_t w2] eqn:H2.
    cbn [fst] in Ht. subst r_t.
    rewrite (append_rows_labels_return cloud rt _ _ _ _ _ _ _ H1 H2), He.
    cbn [fst snd stdout]. rewrite last_snoc. auto.
Qed.

(** The store is unavailable when the sample rows are appended: the
    handler still returns, after printing the error. *)
Lemma store_failure_swallowed_demo :
  fst (process_video Sim.cloud Sim.runtime Demo.event Demo.unavailable_store) = Ok tt
  ∧ last (stdout (snd (process_video Sim.cloud Sim.runtime Demo.event
                         Demo.unavailable_store)))
    = Some (error_line Sim.unavailable).
Proof.
  pose (s1 := snd (analyze_video Sim.cloud Sim.runtime Demo.event Demo.unavailable_store)).
  pose (s2 := snd (print_video_labels Sim.runtime Demo.labels s1)).
  pose (s3 := snd (print_video_speech Sim.runtime Demo.speech default_min_confidence s2)).
  pose (s4 := snd (create_bigquery_tables Sim.cloud s3)).
  eapply proj2.
  apply (store_failure_swallowed Sim.cloud Sim.runtime Demo.event "b" "clip.mp4"
           Demo.labels Demo.speech [] (fst Demo.rows) (snd Demo.rows)
           Demo.unavailable_store s1 s2 s3 s4 Sim.unavailable).
  - vm_compute; reflexivity.
  - vm_compute; reflexivity.
  - vm_compute; reflexivity.
  - vm_compute; reflexivity.
  - vm_compute; reflexivity.
  - vm_compute; reflexivity.
  - vm_compute; reflexivity.
  - split; [reflexivity | left; vm_compute; reflexivity].
Defined.

(** C9, as stated, fails: the label rows are appended, then the
    credentials cannot be refreshed for the transcript append.  The
    exception is no instance of [GoogleCloudError]: it is raised during the
    row-append step, it is not caught, no line reports it, and
    [process_video] raises it. *)
Lemma credentials_failure_propagates :
  let out := process_video Sim.cloud Sim.runtime Demo.event Scenario.expiring in
  fst out = Raise Scenario.refresh_error
  ∧ isinstance_GoogleCloudError Scenario.refresh_error = false
  ∧ last (calls (snd out))
    = Some (CallInsertRowsJson table_ref_transcript
              (map RowOfTranscript (snd Demo.rows)))
  ∧ last (stdout (snd out))
    = Some "New rows have been added to the 'labels' table.".
Proof.
  cbv zeta. split; [vm_compute; reflexivity|]. split; [reflexivity|].
  split; vm_compute; reflexivity.
Qed.

(** ** The file name of the rows *)

Lemma file_name_after_last_slash (video_uri post : string) :
  (video_uri = post ∨ ∃ pre, video_uri = pre +:+ "/" +:+ post) →
  Str.lacks "/"%char post = true →
  getitem (Str.split "/"%char video_uri) (-1) = Ok post.
Proof.
  intros [-> | (pre & ->)] Hpost.
  - rewrite (split_lacks _ _ Hpost). apply (getitem_last []).
  - apply (split_last "/"%char pre post Hpost).
Qed.

Lemma Forall2_Forall_r {A B} (R : A → B → Prop) (P : B → Prop)
      (l : list A) (k : list B) :
  (∀ a b, R a b → P b) → Forall2 R l k → Forall P k.
Proof.
  intros HRP H. induction H; constructor; eauto.
Qed.

Lemma project_rows_named (rt : Runtime) (video_uri post : string)
      (rl rtr : VideoAnnotationResults.t)
      (lrows : list LabelRow.t) (trows : list TranscriptRow.t) :
  getitem (Str.split "/"%char video_uri) (-1) = Ok post →
  project rt video_uri rl rtr = Ok (lrows, trows) →
  Forall (fun r => LabelRow.file_name r = post ∧ LabelRow.file_uri r = video_uri) lrows
  ∧ Forall (fun r => TranscriptRow.file_name r = post) trows.
Proof.
  intros Hname (file_name & Hfn & -> & Htr)%project_inv.
  rewrite Hname in Hfn. injection Hfn as <-. split.
  - induction (VideoAnnotationResults.segment_label_annotations rl) as [|la l IH];
      cbn [flat_map]; [constructor|].
    apply Forall_app. split; [|exact IH].
    induction (LabelAnnotation.segments la) as [|seg segs IHs]; cbn [map];
      constructor; auto.
  - eapply Forall2_Forall_r; [|exact Htr].
    intros t row (a & rest & _ & ->). reflexivity.
Qed.

Lemma Forall_map_row {A} (f : A → Row) (P : Row → Prop) (l : list A) :
  Forall (fun a => P (f a)) l → Forall P (map f l).
Proof.
  intros H. induction H; cbn [map]; constructor; auto.
Qed.

(** C10: let [post] be what stands after the last slash of [video_uri]
    (all of it when it has no slash).  Every row [project] returns, and
    every row of every append [store_results_in_bigquery] issues, has
    [post] as its file name; the label rows have [video_uri] as file uri;
    and the function issues nothing but appends. *)
Theorem rows_file_name {W} (cloud : Cloud W) (rt : Runtime)
        (video_uri post : string) :
  (video_uri = post ∨ ∃ pre, video_uri = pre +:+ "/" +:+ post) →
  Str.lacks "/"%char post = true →
  (∀ rl rtr lrows trows,
     project rt video_uri rl rtr = Ok (lrows, trows) →
     Forall (fun r => LabelRow.file_name r = post ∧ LabelRow.file_uri r = video_uri) lrows
     ∧ Forall (fun r => TranscriptRow.file_name r = post) trows)
  ∧ (∀ results (s : State W),
       ∃ trace,
         calls (snd (store_results_in_bigquery cloud rt video_uri results s))
         = calls s ++ trace
         ∧ Forall (is_insert_of (row_named post video_uri)) trace).
Proof.
  intros Huri Hpost.
  pose proof (file_name_after_last_slash video_uri post Huri Hpost) as Hname.
  split.
  - intros rl rtr lrows trows Hp.
    apply (project_rows_named rt video_uri post rl rtr lrows trows Hname Hp).
  - intros results s.
    assert (Hnone : ∀ e, ∃ trace,
               calls (snd (@Raise unit e, s)) = calls s ++ trace
               ∧ Forall (is_insert_of (row_named post video_uri)) trace).
    { intros e. exists []. split; [symmetry; apply app_nil_r | constructor]. }
    unfold store_results_in_bigquery.
    destruct results as [|rl [|rtr rest]].
    + apply (Hnone IndexError).
    + apply (Hnone IndexError).
    + rewrite getitem_0_cons, getitem_1_cons. unfold bind at 1 2 3, lift.
      destruct (project rt video_uri rl rtr) as [[lrows trows]|e] eqn:Hp;
        [|apply Hnone].
      cbn [fst snd].
      destruct (project_rows_named rt video_uri post rl rtr lrows trows Hname Hp)
        as [Hl Ht].
      apply (Forall_map_row RowOfLabel (row_named post video_uri)) in Hl.
      apply (Forall_map_row RowOfTranscript (row_named post video_uri)) in Ht.
      destruct (append_rows_calls cloud rt (map RowOfLabel lrows)
                  (map RowOfTranscript trows) s) as (trace & -> & [-> | ->]);
        eexists; (split; [reflexivity|]); repeat constructor; assumption.
Qed.

(** The sample rows are all named [clip.mp4]. *)
Lemma rows_file_name_demo :
  Forall (fun r => LabelRow.file_name r = "clip.mp4"
                   ∧ LabelRow.file_uri r = "gs://b/clip.mp4") (fst Demo.rows)
  ∧ Forall (fun r => TranscriptRow.file_name r = "clip.mp4") (snd Demo.rows).
Proof.
  apply (proj1 (rows_file_name Sim.cloud Sim.runtime "gs://b/clip.mp4" "clip.mp4"
                  (or_intror (ex_intro _ "gs://b" eq_refl)) eq_refl)
           Demo.labels Demo.speech (fst Demo.rows) (snd Demo.rows)).
  vm_compute; reflexivity.
Defined.

(** ** The schema provisioner *)

Section Provisioner.
Context {W : Type} (cloud : Cloud W).

(** The three outcomes of the fetch in one block. *)
Lemma create_table_unless_found_run (ref : TableReference)
      (schema : list SchemaField) (s : State W) :
  create_table_unless_found cloud ref schema s
  = let fetched := calls s ++ [CallGetTable ref] in
    match get_table cloud ref (world s) with
    | (Ok _, w1) =>
        (Ok tt,
         {| stdout := stdout s ++ ["Table " +:+ table_id ref
                                   +:+ " already exists. Skipping creation."];
            calls := fetched; world := w1 |})
    | (Raise e, w1) =>
        if isinstance_NotFound e
        then
          let table := {| Table.reference := ref; Table.schema := schema |} in
          match create_table cloud table w1 with
          | (Ok created, w2) =>
              (Ok tt,
               {| stdout := stdout s ++ ["Table " +:+ table_id (Table.reference created)
                                         +:+ " created."];
                  calls := fetched ++ [CallCreateTable table]; world := w2 |})
          | (Raise e', w2) =>
              (Raise e',
               {| stdout := stdout s;
                  calls := fetched ++ [CallCreateTable table]; world := w2 |})
          end
        else (Raise e, {| stdout := stdout s; calls := fetched; world := w1 |})
    end.
Proof.
  unfold create_table_unless_found. run.
  destruct (get_table cloud ref (world s)) as [[found|e] w1]; cbn; [reflexivity|].
  destruct (isinstance_NotFound e); [|reflexivity].
  destruct (create_table cloud _ w1) as [[created|e'] w2]; reflexivity.
Qed.

(** The second block runs exactly when the first one returns. *)
Lemma create_bigquery_tables_run (s : State W) :
  create_bigquery_tables cloud s
  = match create_table_unless_found cloud table_ref_labels schema_labels s with
    | (Ok _, s1) =>
        create_table_unless_found cloud table_ref_transcript schema_transcript s1
    | (Raise e, s1) => (Raise e, s1)
    end.
Proof. reflexivity. Qed.

End Provisioner.

(** C6: in each of the two blocks of the provisioner, a fetch that returns
    leads to no create and to the line saying the table already exists; a
    fetch that raises [NotFound] leads to one create of the table with the
    block's schema, whose own failure leaves the provisioner; a fetch that
    raises anything else leaves the provisioner with that exception, no
    create being made.  The transcript block runs when the label block has
    returned. *)
Theorem provisioner_fetch_outcomes {W} (cloud : Cloud W) (s : State W) :
  fetch_decides cloud table_ref_labels schema_labels s
  ∧ match create_table_unless_found cloud table_ref_labels schema_labels s with
    | (Ok _, s1) =>
        fetch_decides cloud table_ref_transcript schema_transcript s1
        ∧ create_bigquery_tables cloud s
          = create_table_unless_found cloud table_ref_transcript schema_transcript s1
    | (Raise e, s1) => create_bigquery_tables cloud s = (Raise e, s1)
    end.
Proof.
  assert (Hblock : ∀ ref schema (s : State W), fetch_decides cloud ref schema s).
  { intros ref schema s0. unfold fetch_decides.
    rewrite create_table_unless_found_run. cbv zeta.
    destruct (get_table cloud ref (world s0)) as [[found|e] w1]; [reflexivity|].
    destruct (isinstance_NotFound e); [|reflexivity].
    destruct (create_table cloud _ w1) as [[created|e'] w2];
      cbn; rewrite <- app_assoc; auto. }
  split; [apply Hblock|].
  rewrite create_bigquery_tables_run.
  destruct (create_table_unless_found cloud table_ref_labels schema_labels s)
    as [[[]|e] s1]; [|reflexivity].
  split; [apply Hblock | reflexivity].
Qed.

(** One block over the store of [Sim]: the table is absent. *)
Lemma sim_block_absent (ref : TableReference) (schema : list SchemaField)
      (s : State Sim.t) :
  Sim.get_fault (world s) = None →
  Sim.tables (world s) !! Sim.key ref = None →
  create_table_unless_found Sim.cloud ref schema s
  = (Ok tt,
     {| stdout := stdout s ++ ["Table " +:+ table_id ref +:+ " created."];
        calls := calls s
                 ++ [CallGetTable ref;
                     CallCreateTable {| Table.reference := ref; Table.schema := schema |}];
        world := Sim.with_tables (world s)
                   (<[Sim.key ref := schema]> (Sim.tables (world s))) |}).
Proof.
  intros Hfault Habsent. rewrite create_table_unless_found_run.
  cbn [get_table create_table Sim.cloud]. unfold Sim.get_table, Sim.create_table.
  cbn [Table.reference Table.schema].
  rewrite Hfault, Habsent. cbn [isinstance_NotFound]. cbv zeta.
  rewrite Habsent, <- app_assoc. reflexivity.
Qed.

(** One block over the store of [Sim]: the table is there. *)
Lemma sim_block_present (ref : TableReference) (schema found : list SchemaField)
      (s : State Sim.t) :
  Sim.get_fault (world s) = None →
  Sim.tables (world s) !! Sim.key ref = Some found →
  create_table_unless_found Sim.cloud ref schema s
  = (Ok tt,
     {| stdout := stdout s ++ ["Table " +:+ table_id ref
                               +:+ " already exists. Skipping creation."];
        calls := calls s ++ [CallGetTable ref];
        world := world s |}).
Proof.
  intros Hfault Hfound. rewrite create_table_unless_found_run.
  cbn [get_table create_table Sim.cloud]. unfold Sim.get_table.
  rewrite Hfault, Hfound. reflexivity.
Qed.

(** C7: over a store where neither table exists and fetches do not fail,
    a first run of the provisioner fetches and creates each table, and a
    second run fetches each table, finds it, creates nothing and prints
    that each table already exists; the store then holds the two tables
    with their schemas. *)
Theorem provisioning_idempotent (s : State Sim.t) :
  Sim.get_fault (world s) = None →
  Sim.tables (world s) !! Sim.key table_ref_labels = None →
  Sim.tables (world s) !! Sim.key table_ref_transcript = None →
  let out1 := create_bigquery_tables Sim.cloud s in
  let out2 := create_bigquery_tables Sim.cloud (snd out1) in
  fst out1 = Ok tt
  ∧ calls (snd out1)
    = calls s
      ++ [ CallGetTable table_ref_labels;
           CallCreateTable {| Table.reference := table_ref_labels;
                              Table.schema := schema_labels |};
           CallGetTable table_ref_transcript;
           CallCreateTable {| Table.reference := table_ref_transcript;
                              Table.schema := schema_transcript |} ]
  ∧ fst out2 = Ok tt
  ∧ calls (snd out2)
    = calls (snd out1)
      ++ [CallGetTable table_ref_labels; CallGetTable table_ref_transcript]
  ∧ stdout (snd out2)
    = stdout (snd out1)
      ++ [ "Table annotation_labels already exists. Skipping creation.";
           "Table annotation_transcripts already exists. Skipping creation." ]
  ∧ Sim.tables (world (snd out2))
    = <[Sim.key table_ref_transcript := schema_transcript]>
        (<[Sim.key table_ref_labels := schema_labels]> (Sim.tables (world s))).
Proof.
  intros Hfault Hl Ht. cbv zeta.
  assert (Hne : Sim.key table_ref_labels ≠ Sim.key table_ref_transcript)
    by discriminate.
  rewrite (create_bigquery_tables_run Sim.cloud s).
  rewrite (sim_block_absent table_ref_labels schema_labels s Hfault Hl).
  rewrite sim_block_absent;
    [| exact Hfault
     | cbn [world Sim.with_tables Sim.tables];
       rewrite lookup_insert_ne by exact Hne; exact Ht ].
  cbn [fst snd calls stdout world].
  rewrite create_bigquery_tables_run.
  rewrite (sim_block_present table_ref_labels schema_labels schema_labels);
    [| exact Hfault
     | cbn [world Sim.with_tables Sim.tables];
       rewrite lookup_insert_ne by (apply not_eq_sym, Hne);
       apply lookup_insert_eq ].
  rewrite (sim_block_present table_ref_transcript schema_transcript schema_transcript);
    [| exact Hfault
     | cbn [world Sim.with_tables Sim.tables]; apply lookup_insert_eq ].
  cbn [fst snd calls stdout world Sim.with_tables Sim.tables].
  rewrite <- !app_assoc. auto 10.
Qed.

(** Starting from the empty store. *)
Lemma provisioning_idempotent_empty :
  let s := Sim.start (Sim.empty (Ok [])) in
  let out1 := create_bigquery_tables Sim.cloud s in
  let out2 := create_bigquery_tables Sim.cloud (snd out1) in
  fst out1 = Ok tt
  ∧ length (calls (snd out1)) = 4
  ∧ fst out2 = Ok tt
  ∧ calls (snd out2)
    = calls (snd out1)
      ++ [CallGetTable table_ref_labels; CallGetTable table_ref_transcript].
Proof.
  cbv zeta.
  destruct (provisioning_idempotent (Sim.start (Sim.empty (Ok []))))
    as (H1 & H2 & H3 & H4 & _); [reflexivity | reflexivity | reflexivity |].
  rewrite H2 in *. auto.
Defined.


(** ** Sorting by a float key *)

Section SortFacts.
Context {A : Type} (key : A → float).

Local Abbreviation lt := (key_lt key).
Local Abbreviation le := (key_le key).
Local Abbreviation ge := (key_ge key).
Local Abbreviation has := (has_key key).

Lemma insert_by_perm (x : A) (l : list A) :
  Permutation (Py.insert_by lt x l) (x :: l).
Proof.
  induction l as [|y l IH]; cbn [Py.insert_by]; [reflexivity|].
  destruct (lt y x); [|reflexivity].
  rewrite IH. apply perm_swap.
Qed.

Lemma sort_asc_perm (l : list A) : Permutation (Py.sort_asc lt l) l.
Proof.
  induction l as [|x l IH]; cbn [Py.sort_asc]; [reflexivity|].
  rewrite insert_by_perm, IH. reflexivity.
Qed.

Lemma insert_by_hd (x y : A) (l : list A) :
  le y x → HdRel le y l → HdRel le y (Py.insert_by lt x l).
Proof.
  intros Hyx Hl. destruct l as [|z l]; cbn [Py.insert_by]; [constructor; exact Hyx|].
  inversion Hl; subst. destruct (lt z x); constructor; assumption.
Qed.

Lemma insert_by_sorted (x : A) (l : list A) :
  Sorted le l → Sorted le (Py.insert_by lt x l).
Proof.
  induction 1 as [|y l Hl IH Hy]; cbn [Py.insert_by].
  - repeat constructor.
  - unfold key_lt at 1, float_lt. case_bool_decide as Hyx.
    + constructor; [exact IH|].
      apply insert_by_hd; [apply Qclt_le_weak, Hyx | exact Hy].
    + constructor; [constructor; assumption|].
      constructor. apply Qcnot_lt_le, Hyx.
Qed.

Lemma sort_asc_sorted (l : list A) : Sorted le (Py.sort_asc lt l).
Proof.
  induction l as [|x l IH]; cbn [Py.sort_asc]; [constructor|].
  apply insert_by_sorted, IH.
Qed.

Lemma le_trans : Relation_Definitions.transitive A le.
Proof. intros a b c. apply Qcle_trans. Qed.

Lemma StronglySorted_snoc (R : A → A → Prop) (l : list A) (x : A) :
  StronglySorted R l → Forall (fun y => R y x) l → StronglySorted R (l ++ [x]).
Proof.
  induction 1 as [|y l Hl IH Hy]; intros Hx; cbn [app].
  - repeat constructor.
  - inversion Hx; subst. constructor; [auto|].
    apply Forall_app. split; [exact Hy | repeat constructor; assumption].
Qed.

Lemma StronglySorted_rev (l : list A) :
  StronglySorted le l → StronglySorted ge (rev l).
Proof.
  induction 1 as [|y l Hl IH Hy]; cbn [rev]; [constructor|].
  apply StronglySorted_snoc; [exact IH|].
  apply Forall_rev. exact Hy.
Qed.

(** The insertion moves [x] past strictly smaller keys only. *)
Lemma filter_insert_by (c : float) (x : A) (l : list A) :
  List.filter (has c) (Py.insert_by lt x l) = List.filter (has c) (x :: l).
Proof.
  induction l as [|y l IH]; cbn [Py.insert_by]; [reflexivity|].
  destruct (lt y x) eqn:Hyx; [|reflexivity].
  apply bool_decide_eq_true in Hyx.
  cbn [List.filter]. rewrite IH. cbn [List.filter]. unfold has_key.
  repeat case_bool_decide; try reflexivity.
  apply Qclt_not_eq in Hyx. congruence.
Qed.

Lemma filter_sort_asc (c : float) (l : list A) :
  List.filter (has c) (Py.sort_asc lt l) = List.filter (has c) l.
Proof.
  induction l as [|x l IH]; cbn [Py.sort_asc]; [reflexivity|].
  rewrite filter_insert_by. cbn [List.filter]. rewrite IH. reflexivity.
Qed.

Lemma filter_rev (f : A → bool) (l : list A) :
  List.filter f (rev l) = rev (List.filter f l).
Proof.
  induction l as [|x l IH]; cbn [rev List.filter]; [reflexivity|].
  rewrite List.filter_app, IH. cbn [List.filter].
  destruct (f x); cbn [rev]; [reflexivity | apply app_nil_r].
Qed.

(** The descending sort [rev (sort_asc (rev l))]: a permutation, in
    descending order of the keys, that keeps the order of equal keys. *)
Lemma sort_desc_facts (l : list A) :
  let out := rev (Py.sort_asc lt (rev l)) in
  Permutation l out
  ∧ StronglySorted ge out
  ∧ ∀ c, List.filter (has c) out = List.filter (has c) l.
Proof.
  cbv zeta. split; [|split].
  - rewrite <- Permutation_rev, sort_asc_perm, <- Permutation_rev. reflexivity.
  - apply StronglySorted_rev, Sorted_StronglySorted;
      [exact le_trans | apply sort_asc_sorted].
  - intros c. rewrite filter_rev, filter_sort_asc, filter_rev. apply rev_involutive.
Qed.

(** Sorting the decorated list is decorating the sorted list. *)
Lemma insert_by_decorated (x : A) (l : list A) :
  Py.insert_by (fun p q : float * A => float_lt (fst p) (fst q))
               (key x, x) (map (fun a => (key a, a)) l)
  = map (fun a => (key a, a)) (Py.insert_by lt x l).
Proof.
  induction l as [|y l IH]; cbn [Py.insert_by map fst]; [reflexivity|].
  fold (key_lt key y x). destruct (lt y x); cbn [map]; [rewrite IH|]; reflexivity.
Qed.

Lemma sort_asc_decorated (l : list A) :
  Py.sort_asc (fun p q : float * A => float_lt (fst p) (fst q))
              (map (fun a => (key a, a)) l)
  = map (fun a => (key a, a)) (Py.sort_asc lt l).
Proof.
  induction l as [|x l IH]; cbn [Py.sort_asc map]; [reflexivity|].
  rewrite IH. apply insert_by_decorated.
Qed.

Lemma decorate_total (keyr : A → Result float) (l : list A) :
  Forall (fun a => keyr a = Ok (key a)) l →
  Py.decorate keyr l = Ok (map (fun a => (key a, a)) l).
Proof.
  induction 1 as [|x l Hx _ IH]; cbn [Py.decorate map]; [reflexivity|].
  rewrite Hx, IH. reflexivity.
Qed.

Lemma sorted_reverse (keyr : A → Result float) (l : list A) :
  Forall (fun a => keyr a = Ok (key a)) l →
  Py.sorted keyr true l = Ok (rev (Py.sort_asc lt (rev l))).
Proof.
  intros Hkeys. unfold Py.sorted. rewrite (decorate_total keyr l Hkeys).
  cbn [rbind]. rewrite <- map_rev, sort_asc_decorated, <- map_rev, map_map.
  cbn [snd]. rewrite map_id. reflexivity.
Qed.

End SortFacts.

(** ** The two reports *)

Section Reports.
Context {W : Type} (rt : Runtime).

Lemma printed_nil (s : State W) : printed s [] = s.
Proof. destruct s. unfold printed. cbn. rewrite app_nil_r. reflexivity. Qed.

Lemma printed_app (s : State W) (l1 l2 : list string) :
  printed (printed s l1) l2 = printed s (l1 ++ l2).
Proof. unfold printed. cbn. rewrite app_assoc. reflexivity. Qed.

(** A loop whose body prints the lines [g x] prints them for each [x]. *)
Lemma for_each_printed {A} (body : A → M W unit) (g : A → list string)
      (l : list A) (s : State W) :
  Forall (fun x => ∀ s, body x s = (Ok tt, printed s (g x))) l →
  for_each l body s = (Ok tt, printed s (flat_map g l)).
Proof.
  intros Hbody. revert s.
  induction Hbody as [|x l Hx _ IH]; intros s; cbn [for_each flat_map].
  - unfold ret. rewrite printed_nil. reflexivity.
  - unfold bind. rewrite Hx, IH, printed_app. reflexivity.
Qed.

Lemma flat_map_singleton {A B} (f : A → B) (l : list A) :
  flat_map (fun x => [f x]) l = map f l.
Proof. induction l as [|x l IH]; cbn; [|rewrite IH]; reflexivity. Qed.

Lemma first_segment_confidence_total (label : LabelAnnotation.t) :
  has_segment label → first_segment_confidence label = Ok (first_confidence label).
Proof.
  unfold has_segment, first_segment_confidence, first_confidence.
  destruct (LabelAnnotation.segments label) as [|seg segs]; [congruence|].
  intros _. rewrite getitem_0_cons. reflexivity.
Qed.

(** [print_video_labels] once the labels are sorted. *)
Lemma print_video_labels_run (results : VideoAnnotationResults.t)
      (labels : list LabelAnnotation.t) (s : State W) :
  sorted_by_first_segment_confidence
    (VideoAnnotationResults.segment_label_annotations results) = Ok labels →
  print_video_labels rt results s
  = (Ok tt,
     printed s
       (Str.center 80 "-"%char
          (" Video labels: " +:+ Str.of_nat (length labels) +:+ " ")
        :: flat_map (fun label => map (label_line rt label)
                                      (LabelAnnotation.segments label)) labels)).
Proof.
  intros Hsorted. unfold print_video_labels.
  unfold bind at 1, lift. rewrite Hsorted.
  unfold bind at 1, print at 1.
  rewrite (for_each_printed _ (fun label => map (label_line rt label)
                                                (LabelAnnotation.segments label))).
  - unfold printed. cbn. rewrite <- app_assoc. reflexivity.
  - apply Forall_forall. intros label _ s0.
    rewrite (for_each_printed _ (fun segment => [label_line rt label segment])).
    + rewrite flat_map_singleton. reflexivity.
    + apply Forall_forall. intros segment _ s1. reflexivity.
Qed.

Lemma filter_if_total (min_confidence : float) (l : list SpeechTranscription.t) :
  Forall has_alternative l →
  Py.filter_if (keep_transcription min_confidence) l
  = Ok (List.filter (reaches min_confidence) l).
Proof.
  induction 1 as [|t l Ht _ IH]; cbn [Py.filter_if List.filter]; [reflexivity|].
  unfold keep_transcription, reaches, has_alternative in *.
  destruct (SpeechTranscription.alternatives t) as [|a rest]; [congruence|].
  rewrite getitem_0_cons. cbn [rbind]. rewrite IH. reflexivity.
Qed.

Lemma Forall_filter_bool {A} (P : A → Prop) (f : A → bool) (l : list A) :
  Forall P l → Forall P (List.filter f l).
Proof.
  induction 1 as [|x l Hx _ IH]; cbn [List.filter]; [constructor|].
  destruct (f x); [constructor|]; assumption.
Qed.

End Reports.

(** C4: when every label annotation has a segment, the sort returns a
    permutation of the annotations in descending order of the confidence of
    their first segment, in which the annotations of any one confidence keep
    their input order; and the report is a header followed, for each
    annotation in that order, by one line per segment in the segments'
    order. *)
Theorem label_report_order {W} (rt : Runtime) (results : VideoAnnotationResults.t)
        (s : State W) :
  let annotations := VideoAnnotationResults.segment_label_annotations results in
  Forall has_segment annotations →
  ∃ labels,
    sorted_by_first_segment_confidence annotations = Ok labels
    ∧ Permutation annotations labels
    ∧ StronglySorted
        (fun a b => (first_confidence b <= first_confidence a)%Qc) labels
    ∧ (∀ c, List.filter (fun a => bool_decide (first_confidence a = c)) labels
            = List.filter (fun a => bool_decide (first_confidence a = c)) annotations)
    ∧ print_video_labels rt results s
      = (Ok tt,
         printed s
           (Str.center 80 "-"%char
              (" Video labels: " +:+ Str.of_nat (length labels) +:+ " ")
            :: flat_map (fun label => map (label_line rt label)
                                          (LabelAnnotation.segments label)) labels)).
Proof.
  cbv zeta. intros Hseg.
  assert (Hsorted :
    sorted_by_first_segment_confidence
      (VideoAnnotationResults.segment_label_annotations results)
    = Ok (rev (Py.sort_asc (key_lt first_confidence)
                 (rev (VideoAnnotationResults.segment_label_annotations results))))).
  { apply (sorted_reverse first_confidence).
    eapply Forall_impl; [exact Hseg|].
    intros label. apply first_segment_confidence_total. }
  destruct (sort_desc_facts first_confidence
              (VideoAnnotationResults.segment_label_annotations results))
    as (Hperm & Hdesc & Hstable).
  eexists. split; [exact Hsorted|].
  split; [exact Hperm|]. split; [exact Hdesc|]. split; [exact Hstable|].
  apply print_video_labels_run, Hsorted.
Qed.

(** The sample labels: Dog (0.95) comes first, then Cat and Cow (both
    0.92) in their input order; Dog's two segments stay in order. *)
Lemma label_report_order_demo :
  ∃ labels,
    sorted_by_first_segment_confidence [Demo.cat; Demo.dog; Demo.cow] = Ok labels
    ∧ labels = [Demo.dog; Demo.cat; Demo.cow]
    ∧ stdout (snd (print_video_labels Sim.runtime Demo.labels
                     (Sim.start (Sim.empty (Ok [])))))
      = Str.center 80 "-"%char " Video labels: 3 "
        :: [ label_line Sim.runtime Demo.dog (Demo.seg (95 # 100) 0 1000000);
             label_line Sim.runtime Demo.dog (Demo.seg (1 # 2) 3000000 4000000);
             label_line Sim.runtime Demo.cat (Demo.seg (92 # 100) 0 5000000);
             label_line Sim.runtime Demo.cow (Demo.seg (92 # 100) 0 5000000) ].
Proof.
  destruct (label_report_order Sim.runtime Demo.labels (Sim.start (Sim.empty (Ok []))))
    as (labels & Hsorted & _ & _ & _ & Hprint).
  - repeat constructor; discriminate.
  - exists labels. split; [exact Hsorted|].
    assert (Hlabels : labels = [Demo.dog; Demo.cat; Demo.cow]).
    { vm_compute in Hsorted. injection Hsorted as <-. reflexivity. }
    split; [exact Hlabels|].
    rewrite Hprint, Hlabels. vm_compute. reflexivity.
Defined.

(** C5: when every transcription has an alternative, the speech report is
    a header followed by the lines of the transcriptions whose first
    alternative has a confidence at or above the threshold, in input order;
    each line shows that first alternative only, its text stripped.  A first
    confidence equal to the threshold passes; one below it does not. *)
Theorem speech_report_threshold {W} (rt : Runtime) (results : VideoAnnotationResults.t)
        (min_confidence : float) (s : State W) :
  let transcriptions := VideoAnnotationResults.speech_transcriptions results in
  let kept := List.filter (reaches min_confidence) transcriptions in
  Forall has_alternative transcriptions →
  print_video_speech rt results min_confidence s
  = (Ok tt,
     printed s
       (Str.center 80 "-"%char
          (" Speech transcriptions: " +:+ Str.of_nat (length kept) +:+ " ")
        :: map (transcription_line rt) kept))
  ∧ (∀ t a rest,
       SpeechTranscription.alternatives t = a :: rest →
       transcription_line rt t
       = " " +:+ format_percent rt (SpeechRecognitionAlternative.confidence a)
         +:+ " | " +:+ Str.strip (SpeechRecognitionAlternative.transcript a)
       ∧ (reaches min_confidence t = true
          ↔ (min_confidence <= SpeechRecognitionAlternative.confidence a)%Qc)
       ∧ (SpeechRecognitionAlternative.confidence a = min_confidence →
          reaches min_confidence t = true)
       ∧ ((SpeechRecognitionAlternative.confidence a < min_confidence)%Qc →
          reaches min_confidence t = false)).
Proof.
  cbv zeta. intros Halt. split.
  - unfold print_video_speech. unfold bind at 1, lift at 1.
    rewrite (filter_if_total min_confidence _ Halt).
    unfold bind at 1, print at 1.
    rewrite (for_each_printed _ (fun t => [transcription_line rt t])).
    + rewrite flat_map_singleton. unfold printed. cbn.
      rewrite <- app_assoc. reflexivity.
    + apply Forall_filter_bool. eapply Forall_impl; [exact Halt|].
      intros t Ht s0. unfold transcription_line, has_alternative in *.
      destruct (SpeechTranscription.alternatives t) as [|a rest]; [congruence|].
      rewrite getitem_0_cons. reflexivity.
  - intros t a rest Ha. unfold transcription_line, reaches, float_le.
    rewrite Ha. split; [reflexivity|]. split; [apply bool_decide_eq_true|].
    split.
    + intros ->. apply bool_decide_eq_true, Qcle_refl.
    + intros Hlt. apply bool_decide_eq_false, Qclt_not_le, Hlt.
Qed.

(** The sample transcriptions at the default threshold: the one at 0.8 and
    the one at 0.9 are printed, stripped; the one at 0.75 is not. *)
Lemma speech_report_threshold_demo :
  stdout (snd (print_video_speech Sim.runtime Demo.speech default_min_confidence
                 (Sim.start (Sim.empty (Ok [])))))
  = [ Str.center 80 "-"%char " Speech transcriptions: 2 ";
      " " +:+ format_percent Sim.runtime (Q2Qc (8 # 10)) +:+ " | hello";
      " " +:+ format_percent Sim.runtime (Q2Qc (9 # 10)) +:+ " | yes sir" ]
  ∧ reaches default_min_confidence (Demo.said [Demo.alt "hello" (8 # 10)]) = true
  ∧ reaches default_min_confidence (Demo.said [Demo.alt "hello" (3 # 4)]) = false.
Proof.
  destruct (speech_report_threshold Sim.runtime Demo.speech default_min_confidence
              (Sim.start (Sim.empty (Ok [])))) as [Hprint Hline].
  - repeat constructor; discriminate.
  - split; [rewrite Hprint; vm_compute; reflexivity|].
    split.
    + apply (Hline (Demo.said [Demo.alt "hello" (8 # 10)]) _ [] eq_refl).
      vm_compute. reflexivity.
    + apply (Hline (Demo.said [Demo.alt "hello" (3 # 4)]) _ [] eq_refl).
      vm_compute. reflexivity.
Defined.


(** * Further properties *)

(** ** Pieces of a split *)

Lemma lacks_app (sep : ascii) (s t : string) :
  Str.lacks sep (s +:+ t) = Str.lacks sep s && Str.lacks sep t.
Proof.
  induction s as [|c s IH]; simpl; [reflexivity|].
  rewrite IH. apply andb_assoc.
Qed.

Lemma lacks_cons_sep (sep : ascii) (s : string) :
  Str.lacks sep (String sep s) = false.
Proof. cbn [Str.lacks]. rewrite Ascii.eqb_refl. reflexivity. Qed.

(** No piece of a split holds the separator. *)
Lemma split_pieces_lack (sep : ascii) (s : string) :
  Forall (fun w => Str.lacks sep w = true) (Str.split sep s).
Proof.
  induction s as [|c s IH]; cbn [Str.split].
  - repeat constructor.
  - destruct (Ascii.eqb c sep) eqn:Hc.
    + constructor; [reflexivity | exact IH].
    + destruct (Str.split sep s) as [|w ws]; [repeat constructor; cbn; rewrite Hc; reflexivity|].
      inversion IH as [|? ? Hw Hws]; subst.
      constructor; [|exact Hws]. cbn [Str.lacks]. rewrite Hc, Hw. reflexivity.
Qed.

(** Joining the pieces with the separator gives the string back. *)
Lemma join_split (sep : ascii) (s : string) :
  Str.join (String sep EmptyString) (Str.split sep s) = s.
Proof.
  unfold Str.join. induction s as [|c s IH]; cbn [Str.split]; [reflexivity|].
  destruct (Ascii.eqb c sep) eqn:Hc.
  - apply Ascii.eqb_eq in Hc as ->.
    destruct (split_not_nil sep s) as (w & ws & Hs). rewrite Hs in *.
    change (String.concat (String sep EmptyString) (EmptyString :: w :: ws))
      with (String sep (String.concat (String sep EmptyString) (w :: ws))).
    rewrite IH. reflexivity.
  - destruct (Str.split sep s) as [|w [|w' ws]].
    + cbn in IH. subst s. reflexivity.
    + cbn in IH. subst s. reflexivity.
    + change (String.concat (String sep EmptyString) (String c w :: w' :: ws))
        with (String c (String.concat (String sep EmptyString) (w :: w' :: ws))).
      rewrite IH. reflexivity.
Qed.

(** The first piece: a prefix without separator, which is the whole
    string or is followed by a separator. *)
Lemma split_head (sep : ascii) (s : string) :
  ∃ stem ws,
    Str.split sep s = stem :: ws
    ∧ Str.lacks sep stem = true
    ∧ (s = stem ∨ ∃ rest, s = stem +:+ String sep rest).
Proof.
  induction s as [|c s (stem & ws & Hs & Hstem & Hshape)]; cbn [Str.split].
  - exists EmptyString, []. auto.
  - destruct (Ascii.eqb c sep) eqn:Hc.
    + apply Ascii.eqb_eq in Hc as ->.
      exists EmptyString, (Str.split sep s).
      split; [reflexivity|]. split; [reflexivity|]. right. exists s. reflexivity.
    + rewrite Hs. exists (String c stem), ws.
      split; [reflexivity|]. split; [cbn; rewrite Hc, Hstem; reflexivity|].
      destruct Hshape as [-> | (rest & ->)]; [left | right; exists rest]; reflexivity.
Qed.

(** The last piece: a suffix without separator, which is the whole string
    or is preceded by a separator. *)
Lemma split_tail (sep : ascii) (s : string) :
  ∃ post,
    getitem (Str.split sep s) (-1) = Ok post
    ∧ Str.lacks sep post = true
    ∧ (s = post ∨ ∃ pre, s = pre +:+ String sep post).
Proof.
  induction s as [|c s (post & Hlast & Hpost & Hshape)]; cbn [Str.split].
  - exists EmptyString. split; [apply (getitem_last [])|]. auto.
  - destruct (split_not_nil sep s) as (w & ws & Hs). rewrite Hs in *.
    destruct (Ascii.eqb c sep) eqn:Hc.
    + apply Ascii.eqb_eq in Hc as ->. exists post.
      destruct (exists_last (l := w :: ws)) as (l' & x & Hl); [discriminate|].
      rewrite Hl in *. rewrite getitem_last in Hlast. injection Hlast as ->.
      split; [apply (getitem_last (EmptyString :: l'))|]. split; [exact Hpost|].
      right. destruct Hshape as [-> | (pre & ->)].
      * exists EmptyString. reflexivity.
      * exists (String sep pre). reflexivity.
    + destruct ws as [|w' ws'].
      * rewrite (getitem_last [] w : getitem [w] (-1) = Ok w) in Hlast.
        injection Hlast as ->.
        exists (String c post). split; [apply (getitem_last [])|].
        split; [cbn; rewrite Hc, Hpost; reflexivity|].
        destruct Hshape as [-> | (pre & ->)]; [left; reflexivity|].
        exfalso. pose proof (split_app sep pre post) as Happ. rewrite Hs in Happ.
        destruct (split_not_nil sep pre) as (a & l1 & Hpre).
        destruct (split_not_nil sep post) as (b & l2 & Hpost').
        rewrite Hpre, Hpost' in Happ. destruct l1; discriminate.
      * destruct (exists_last (l := w' :: ws')) as (l' & x & Hl); [discriminate|].
        rewrite Hl in *.
        rewrite (getitem_last (w :: l') x
                 : getitem (w :: l' ++ [x]) (-1) = Ok x) in Hlast.
        injection Hlast as ->.
        exists post. split; [apply (getitem_last (String c w :: l'))|].
        split; [exact Hpost|]. right.
        destruct Hshape as [-> | (pre & ->)].
        -- exfalso. rewrite (split_lacks _ _ Hpost) in Hs.
           injection Hs as _ Hnil. destruct l'; discriminate.
        -- exists (String c pre). reflexivity.
Qed.

Lemma getitem_last_app {A} (l1 l2 : list A) (x : A) :
  getitem l2 (-1) = Ok x → getitem (l1 ++ l2) (-1) = Ok x.
Proof.
  destruct l2 as [|y l2] using rev_ind; [discriminate|].
  rewrite getitem_last. intros [= ->]. rewrite app_assoc. apply getitem_last.
Qed.

(** ** The request and the event *)

(** X2: for every event that has a bucket and a name, the request has
    the fixed features and context, input_uri [gs://bucket/name], and
    output_uri [gs://outputbucket-cloud9/stem.json], where [stem] holds no
    dot and is the name itself or the part of the name before a dot; a name
    without dot is its own stem. *)
Theorem build_request_shape (event : gmap string string) (bucket name : string) :
  event !! "bucket" = Some bucket →
  event !! "name" = Some name →
  ∃ stem,
    build_request event
    = Ok {| Request.features := features;
            Request.input_uri := "gs://" +:+ bucket +:+ "/" +:+ name;
            Request.output_uri := "gs://outputbucket-cloud9/" +:+ stem +:+ ".json";
            Request.video_context := video_context |}
    ∧ Str.lacks "."%char stem = true
    ∧ (name = stem ∨ ∃ rest, name = stem +:+ "." +:+ rest)
    ∧ (Str.lacks "."%char name = true → stem = name).
Proof.
  intros Hb Hn. unfold build_request, dict_getitem. rewrite Hb, Hn. cbn [rbind].
  destruct (split_head "."%char name) as (stem & ws & Hs & Hstem & Hshape).
  rewrite Hs, getitem_0_cons. cbn [rbind]. exists stem.
  split; [reflexivity|]. split; [exact Hstem|]. split; [exact Hshape|].
  intros Hname. destruct Hshape as [-> | (rest & ->)]; [reflexivity|].
  rewrite lacks_app, lacks_cons_sep, andb_false_r in Hname. discriminate.
Qed.

(** An object without extension: the whole name is the stem. *)
Lemma build_request_shape_no_dot :
  ∃ stem,
    build_request {[ "bucket" := "b"; "name" := "dir/clip" ]}
    = Ok {| Request.features := features;
            Request.input_uri := "gs://b/dir/clip";
            Request.output_uri := "gs://outputbucket-cloud9/" +:+ stem +:+ ".json";
            Request.video_context := video_context |}
    ∧ stem = "dir/clip".
Proof.
  destruct (build_request_shape {[ "bucket" := "b"; "name" := "dir/clip" ]}
              "b" "dir/clip") as (stem & Hreq & _ & _ & Hstem);
    [reflexivity | reflexivity |].
  exists stem. split; [exact Hreq | apply Hstem; reflexivity].
Defined.

(** X1: when the event misses a key, [analyze_video] raises [KeyError]
    for the first key missed, bucket before name; it has printed the event
    and nothing else, and the annotation service is not called. *)
Theorem analyze_video_missing_key {W} (cloud : Cloud W) (rt : Runtime)
        (event : gmap string string) (s : State W) :
  event !! "bucket" = None ∨ event !! "name" = None →
  analyze_video cloud rt event s
  = (Raise (KeyError (missing_key event)), printed s [repr_event rt event]).
Proof.
  intros Hmiss. unfold analyze_video, build_request, dict_getitem, missing_key.
  run. unfold printed.
  destruct (event !! "bucket") as [bucket|]; [|reflexivity].
  destruct Hmiss as [Hb | Hn]; [discriminate|]. rewrite Hn. reflexivity.
Qed.

(** The event without name. *)
Lemma analyze_video_missing_key_name :
  analyze_video Sim.cloud Sim.runtime Scenario.nameless Scenario.fresh
  = (Raise (KeyError "name"),
     printed Scenario.fresh [repr_event Sim.runtime Scenario.nameless]).
Proof.
  apply (analyze_video_missing_key Sim.cloud Sim.runtime Scenario.nameless
           Scenario.fresh).
  right. reflexivity.
Defined.

(** X3: when the event misses a key, [process_video] raises [KeyError]
    for the first key missed before anything is printed and before any
    call: the state is the one it started in. *)
Theorem process_video_missing_key {W} (cloud : Cloud W) (rt : Runtime)
        (event : gmap string string) (s : State W) :
  event !! "bucket" = None ∨ event !! "name" = None →
  process_video cloud rt event s = (Raise (KeyError (missing_key event)), s).
Proof.
  intros Hmiss. unfold process_video, dict_getitem, missing_key.
  unfold bind at 1, lift at 1.
  destruct (event !! "bucket") as [bucket|]; [|reflexivity].
  destruct Hmiss as [Hb | Hn]; [discriminate|]. rewrite Hn. reflexivity.
Qed.

(** The empty event. *)
Lemma process_video_missing_key_empty :
  process_video Sim.cloud Sim.runtime ∅ Scenario.fresh
  = (Raise (KeyError "bucket"), Scenario.fresh).
Proof.
  rewrite (process_video_missing_key Sim.cloud Sim.runtime ∅ Scenario.fresh);
    [reflexivity | left; reflexivity].
Defined.

(** X4: the file name of the rows is read off the object name alone: it
    is the last piece of the name split at its slashes, holds no slash, and
    is the name itself or what follows the last slash of the name; the
    bucket has no part in it. *)
Theorem rows_named_after_object (rt : Runtime) (bucket name : string)
        (rl rtr : VideoAnnotationResults.t)
        (lrows : list LabelRow.t) (trows : list TranscriptRow.t) :
  project rt ("gs://" +:+ bucket +:+ "/" +:+ name) rl rtr = Ok (lrows, trows) →
  ∃ file_name,
    getitem (Str.split "/"%char name) (-1) = Ok file_name
    ∧ Str.lacks "/"%char file_name = true
    ∧ (name = file_name ∨ ∃ dir, name = dir +:+ "/" +:+ file_name)
    ∧ Forall (fun r => LabelRow.file_name r = file_name) lrows
    ∧ Forall (fun r => TranscriptRow.file_name r = file_name) trows.
Proof.
  intros Hp.
  destruct (split_tail "/"%char name) as (file_name & Hlast & Hlacks & Hshape).
  exists file_name. split; [exact Hlast|]. split; [exact Hlacks|].
  split; [exact Hshape|].
  assert (Huri : getitem (Str.split "/"%char ("gs://" +:+ bucket +:+ "/" +:+ name)) (-1)
                 = Ok file_name).
  { change ("gs://" +:+ bucket +:+ "/" +:+ name)
      with ("gs:/" +:+ String "/"%char (bucket +:+ String "/"%char name)).
    rewrite split_app, split_app.
    apply getitem_last_app, getitem_last_app, Hlast. }
  destruct (project_rows_named rt _ file_name rl rtr lrows trows Huri Hp) as [Hl Ht].
  split; [|exact Ht].
  eapply Forall_impl; [exact Hl|]. intros r [Hr _]. exact Hr.
Qed.

(** The object [dir/clip.mp4] of bucket [b]: the rows are named [clip.mp4]. *)
Lemma rows_named_after_object_nested :
  Forall (fun r => LabelRow.file_name r = "clip.mp4") (fst Scenario.nested_rows)
  ∧ Forall (fun r => TranscriptRow.file_name r = "clip.mp4") (snd Scenario.nested_rows).
Proof.
  destruct (rows_named_after_object Sim.runtime "b" "dir/clip.mp4"
              Demo.labels Demo.speech
              (fst Scenario.nested_rows) (snd Scenario.nested_rows))
    as (file_name & Hlast & _ & _ & Hl & Ht).
  - vm_compute. reflexivity.
  - vm_compute in Hlast. injection Hlast as <-. split; assumption.
Defined.

(** ** The reports at their edges *)

Lemma getitem_raises {A} (l : list A) (i : Z) (e : exn) :
  getitem l i = Raise e → e = IndexError.
Proof.
  unfold getitem.
  destruct ((0 <=? (if (i <? 0)%Z then (i + Z.of_nat (length l))%Z else i))%Z
            && ((if (i <? 0)%Z then (i + Z.of_nat (length l))%Z else i)
                <? Z.of_nat (length l))%Z); [|congruence].
  destruct (l !! _); congruence.
Qed.

Lemma first_segment_confidence_bare (label : LabelAnnotation.t) :
  LabelAnnotation.segments label = [] →
  first_segment_confidence label = Raise IndexError.
Proof. unfold first_segment_confidence. intros ->. reflexivity. Qed.

Lemma first_segment_confidence_cases (label : LabelAnnotation.t) :
  first_segment_confidence label = Raise IndexError
  ∨ first_segment_confidence label = Ok (first_confidence label)
    ∧ has_segment label.
Proof.
  unfold first_segment_confidence, first_confidence, has_segment.
  destruct (LabelAnnotation.segments label) as [|seg segs]; [left; reflexivity|].
  right. rewrite getitem_0_cons. split; [reflexivity | discriminate].
Qed.

(** The keys are computed before anything is sorted: one label without
    segment makes the sort raise. *)
Lemma sorted_bare (labels : list LabelAnnotation.t) :
  Exists (fun label => LabelAnnotation.segments label = []) labels →
  sorted_by_first_segment_confidence labels = Raise IndexError.
Proof.
  intros Hbare. unfold sorted_by_first_segment_confidence, Py.sorted.
  assert (Hdec : Py.decorate first_segment_confidence labels = Raise IndexError).
  { induction Hbare as [label l Hb | label l _ IH]; cbn [Py.decorate].
    - rewrite (first_segment_confidence_bare label Hb). reflexivity.
    - destruct (first_segment_confidence_cases label) as [-> | [-> _]];
        [reflexivity|].
      cbn [rbind]. rewrite IH. reflexivity. }
  rewrite Hdec. reflexivity.
Qed.

(** When the sort returns, every label has a segment. *)
Lemma sorted_inv (labels out : list LabelAnnotation.t) :
  sorted_by_first_segment_confidence labels = Ok out → Forall has_segment labels.
Proof.
  unfold sorted_by_first_segment_confidence, Py.sorted.
  destruct (Py.decorate first_segment_confidence labels) as [keyed|e] eqn:Hdec;
    [intros _ | discriminate].
  revert keyed Hdec. induction labels as [|label l IH]; intros keyed; [constructor|].
  cbn [Py.decorate].
  destruct (first_segment_confidence_cases label) as [-> | [-> Hseg]];
    [discriminate|].
  cbn [rbind].
  destruct (Py.decorate first_segment_confidence l) as [rest|e]; [|discriminate].
  intros _. constructor; [exact Hseg | eapply IH; reflexivity].
Qed.

Lemma keep_transcription_cases (min_confidence : float) (t : SpeechTranscription.t) :
  SpeechTranscription.alternatives t = []
  ∧ keep_transcription min_confidence t = Raise IndexError
  ∨ has_alternative t
    ∧ keep_transcription min_confidence t = Ok (reaches min_confidence t).
Proof.
  unfold keep_transcription, reaches, has_alternative.
  destruct (SpeechTranscription.alternatives t) as [|a rest]; [left; auto|].
  right. rewrite getitem_0_cons. split; [discriminate | reflexivity].
Qed.

Lemma filter_if_bare (min_confidence : float) (l : list SpeechTranscription.t) :
  Exists (fun t => SpeechTranscription.alternatives t = []) l →
  Py.filter_if (keep_transcription min_confidence) l = Raise IndexError.
Proof.
  induction 1 as [t l Hb | t l _ IH]; cbn [Py.filter_if].
  - destruct (keep_transcription_cases min_confidence t) as [[_ ->] | [Ht _]];
      [reflexivity | contradiction].
  - destruct (keep_transcription_cases min_confidence t) as [[_ ->] | [_ ->]];
      [reflexivity|].
    cbn [rbind]. rewrite IH. reflexivity.
Qed.

Lemma filter_if_inv (min_confidence : float) (l kept : list SpeechTranscription.t) :
  Py.filter_if (keep_transcription min_confidence) l = Ok kept →
  Forall has_alternative l.
Proof.
  revert kept. induction l as [|t l IH]; intros kept; [constructor|].
  cbn [Py.filter_if].
  destruct (keep_transcription_cases min_confidence t) as [[_ ->] | [Ht ->]];
    [discriminate|].
  cbn [rbind].
  destruct (Py.filter_if (keep_transcription min_confidence) l) as [rest|e];
    [|discriminate].
  intros _. constructor; [exact Ht | eapply IH; reflexivity].
Qed.

(** [print_video_speech] when every transcription has an alternative. *)
Lemma print_video_speech_run {W} (rt : Runtime) (results : VideoAnnotationResults.t)
      (min_confidence : float) (s : State W) :
  Forall has_alternative (VideoAnnotationResults.speech_transcriptions results) →
  print_video_speech rt results min_confidence s
  = (Ok tt,
     printed s
       (Str.center 80 "-"%char
          (" Speech transcriptions: "
           +:+ Str.of_nat
                 (length (List.filter (reaches min_confidence)
                            (VideoAnnotationResults.speech_transcriptions results)))
           +:+ " ")
        :: map (transcription_line rt)
               (List.filter (reaches min_confidence)
                  (VideoAnnotationResults.speech_transcriptions results)))).
Proof.
  intros Halt. unfold print_video_speech. unfold bind at 1, lift at 1.
  rewrite (filter_if_total min_confidence _ Halt).
  unfold bind at 1, print at 1.
  rewrite (for_each_printed _ (fun t => [transcription_line rt t])).
  - rewrite flat_map_singleton. unfold printed. cbn.
    rewrite <- app_assoc. reflexivity.
  - apply Forall_filter_bool. eapply Forall_impl; [exact Halt|].
    intros t Ht s0. unfold transcription_line, has_alternative in *.
    destruct (SpeechTranscription.alternatives t) as [|a rest]; [congruence|].
    rewrite getitem_0_cons. reflexivity.
Qed.

(** X5: one label annotation without segment makes [print_video_labels]
    raise [IndexError] before it prints anything, the header included,
    whatever the other annotations hold. *)
Theorem print_video_labels_bare {W} (rt : Runtime)
        (results : VideoAnnotationResults.t) (s : State W) :
  Exists (fun label => LabelAnnotation.segments label = [])
         (VideoAnnotationResults.segment_label_annotations results) →
  print_video_labels rt results s = (Raise IndexError, s).
Proof.
  intros Hbare. unfold print_video_labels. unfold bind at 1, lift.
  rewrite (sorted_bare _ Hbare). reflexivity.
Qed.

(** A label with a segment followed by a label without. *)
Lemma print_video_labels_bare_demo :
  print_video_labels Sim.runtime Scenario.bare_labels Scenario.fresh
  = (Raise IndexError, Scenario.fresh).
Proof.
  apply (print_video_labels_bare Sim.runtime Scenario.bare_labels Scenario.fresh).
  apply Exists_cons_tl, Exists_cons_hd. reflexivity.
Defined.

(** X6: one transcription without alternative makes [print_video_speech]
    raise [IndexError] before it prints anything, at every threshold and
    whatever the other transcriptions hold. *)
Theorem print_video_speech_bare {W} (rt : Runtime)
        (results : VideoAnnotationResults.t) (min_confidence : float) (s : State W) :
  Exists (fun t => SpeechTranscription.alternatives t = [])
         (VideoAnnotationResults.speech_transcriptions results) →
  print_video_speech rt results min_confidence s = (Raise IndexError, s).
Proof.
  intros Hbare. unfold print_video_speech. unfold bind at 1, lift at 1.
  rewrite (filter_if_bare min_confidence _ Hbare). reflexivity.
Qed.

(** A transcription at 0.9 followed by one without alternative. *)
Lemma print_video_speech_bare_demo :
  print_video_speech Sim.runtime Scenario.bare_speech default_min_confidence
                     Scenario.fresh
  = (Raise IndexError, Scenario.fresh).
Proof.
  apply (print_video_speech_bare Sim.runtime Scenario.bare_speech
           default_min_confidence Scenario.fresh).
  apply Exists_cons_tl, Exists_cons_hd. reflexivity.
Defined.

(** The label report only prints. *)
Lemma print_video_labels_prints {W} (rt : Runtime)
      (results : VideoAnnotationResults.t) (s : State W) :
  ∃ lines, snd (print_video_labels rt results s) = printed s lines.
Proof.
  destruct (sorted_by_first_segment_confidence
              (VideoAnnotationResults.segment_label_annotations results))
    as [labels|e] eqn:Hsorted.
  - rewrite (print_video_labels_run rt results labels s Hsorted). eauto.
  - exists []. unfold print_video_labels. unfold bind at 1, lift.
    rewrite Hsorted. symmetry. apply printed_nil.
Qed.

(** The speech report only prints. *)
Lemma print_video_speech_prints {W} (rt : Runtime)
      (results : VideoAnnotationResults.t) (min_confidence : float) (s : State W) :
  ∃ lines, snd (print_video_speech rt results min_confidence s) = printed s lines.
Proof.
  destruct (Py.filter_if (keep_transcription min_confidence)
              (VideoAnnotationResults.speech_transcriptions results))
    as [kept|e] eqn:Hkept.
  - rewrite (print_video_speech_run rt results min_confidence s
               (filter_if_inv _ _ _ Hkept)). eauto.
  - exists []. unfold print_video_speech. unfold bind at 1, lift at 1.
    rewrite Hkept. symmetry. apply printed_nil.
Qed.

(** X7: the two reports only print: whatever the results, and whether
    they return or raise, they make no call, leave the services as they
    are, and keep what was printed before. *)
Theorem reports_only_print {W} (rt : Runtime) (results : VideoAnnotationResults.t)
        (min_confidence : float) (s : State W) :
  let after_labels := snd (print_video_labels rt results s) in
  let after_speech := snd (print_video_speech rt results min_confidence s) in
  (calls after_labels = calls s ∧ world after_labels = world s
   ∧ ∃ lines, stdout after_labels = stdout s ++ lines)
  ∧ (calls after_speech = calls s ∧ world after_speech = world s
     ∧ ∃ lines, stdout after_speech = stdout s ++ lines).
Proof.
  cbv zeta. split.
  - destruct (print_video_labels_prints rt results s) as [lines ->].
    cbn. eauto.
  - destruct (print_video_speech_prints rt results min_confidence s) as [lines ->].
    cbn. eauto.
Qed.

Lemma sum_list_map_perm {A} (f : A → nat) (l l' : list A) :
  Permutation l l' → sum_list (map f l) = sum_list (map f l').
Proof.
  induction 1; cbn [map sum_list sum_list_with]; lia.
Qed.

(** X8: when every label annotation has a segment, the lines of the label
    report after the header are the lines of the annotations in input
    order, permuted: each segment of each annotation has exactly one line,
    and the report has one line more than there are segments. *)
Theorem label_report_lines {W} (rt : Runtime) (results : VideoAnnotationResults.t)
        (s : State W) :
  let annotations := VideoAnnotationResults.segment_label_annotations results in
  Forall has_segment annotations →
  ∃ header lines,
    print_video_labels rt results s = (Ok tt, printed s (header :: lines))
    ∧ header = Str.center 80 "-"%char
                 (" Video labels: " +:+ Str.of_nat (length annotations) +:+ " ")
    ∧ Permutation
        (flat_map (fun label => map (label_line rt label)
                                    (LabelAnnotation.segments label)) annotations)
        lines
    ∧ length lines
      = sum_list (map (fun label => length (LabelAnnotation.segments label))
                      annotations).
Proof.
  cbv zeta. intros Hseg.
  assert (Hsorted :
    sorted_by_first_segment_confidence
      (VideoAnnotationResults.segment_label_annotations results)
    = Ok (rev (Py.sort_asc (key_lt first_confidence)
                 (rev (VideoAnnotationResults.segment_label_annotations results))))).
  { apply (sorted_reverse first_confidence).
    eapply Forall_impl; [exact Hseg|].
    intros label. apply first_segment_confidence_total. }
  destruct (sort_desc_facts first_confidence
              (VideoAnnotationResults.segment_label_annotations results))
    as (Hperm & _ & _).
  eexists _, _. split; [apply print_video_labels_run, Hsorted|].
  split; [rewrite <- (Permutation_length Hperm); reflexivity|].
  split; [apply Permutation_flat_map, Hperm|].
  rewrite length_flat_map_segments. symmetry. apply sum_list_map_perm, Hperm.
Qed.

(** The sample labels: a header for three labels and four lines. *)
Lemma label_report_lines_demo :
  ∃ header lines,
    print_video_labels Sim.runtime Demo.labels Scenario.fresh
    = (Ok tt, printed Scenario.fresh (header :: lines))
    ∧ header = Str.center 80 "-"%char " Video labels: 3 "
    ∧ length lines = 4.
Proof.
  destruct (label_report_lines Sim.runtime Demo.labels Scenario.fresh)
    as (header & lines & Hprint & Hheader & _ & Hlen).
  - repeat constructor; discriminate.
  - exists header, lines. auto.
Defined.

Lemma filter_sublist_impl {A} (f g : A → bool) (l : list A) :
  (∀ x, f x = true → g x = true) →
  sublist (List.filter f l) (List.filter g l).
Proof.
  intros Hfg. induction l as [|x l IH]; cbn [List.filter]; [constructor|].
  destruct (f x) eqn:Hf.
  - rewrite (Hfg x Hf). constructor. exact IH.
  - destruct (g x); [constructor|]; exact IH.
Qed.

Lemma filter_sublist {A} (f : A → bool) (l : list A) : sublist (List.filter f l) l.
Proof.
  induction l as [|x l IH]; cbn [List.filter]; [constructor|].
  destruct (f x); constructor; exact IH.
Qed.

Lemma reaches_mono (m1 m2 : float) (t : SpeechTranscription.t) :
  (m1 <= m2)%Qc → reaches m2 t = true → reaches m1 t = true.
Proof.
  unfold reaches, float_le. intros Hm.
  destruct (SpeechTranscription.alternatives t) as [|a rest]; [auto|].
  rewrite !bool_decide_eq_true. intros H2. eapply Qcle_trans; eassumption.
Qed.

(** X9: when every transcription has an alternative, the speech report
    lists transcriptions in input order, without repeating or reordering
    them, and raising the threshold only removes lines: what is listed at
    the higher threshold is listed, in the same order, at the lower one. *)
Theorem speech_report_monotone {W} (rt : Runtime) (results : VideoAnnotationResults.t)
        (m1 m2 : float) (s : State W) :
  let transcriptions := VideoAnnotationResults.speech_transcriptions results in
  Forall has_alternative transcriptions →
  (m1 <= m2)%Qc →
  ∃ header1 kept1 header2 kept2,
    print_video_speech rt results m1 s
    = (Ok tt, printed s (header1 :: map (transcription_line rt) kept1))
    ∧ print_video_speech rt results m2 s
      = (Ok tt, printed s (header2 :: map (transcription_line rt) kept2))
    ∧ sublist kept2 kept1
    ∧ sublist kept1 transcriptions.
Proof.
  cbv zeta. intros Halt Hm.
  eexists _, _, _, _.
  split; [apply (print_video_speech_run rt results m1 s Halt)|].
  split; [apply (print_video_speech_run rt results m2 s Halt)|].
  split; [|apply filter_sublist].
  apply filter_sublist_impl. intros t. apply reaches_mono, Hm.
Qed.

(** The sample transcriptions at thresholds 0.5 and 0.8: three lines,
    then two. *)
Lemma speech_report_monotone_demo :
  ∃ header1 kept1 header2 kept2,
    print_video_speech Sim.runtime Demo.speech (Q2Qc (1 # 2)) Scenario.fresh
    = (Ok tt, printed Scenario.fresh
                (header1 :: map (transcription_line Sim.runtime) kept1))
    ∧ print_video_speech Sim.runtime Demo.speech default_min_confidence Scenario.fresh
      = (Ok tt, printed Scenario.fresh
                  (header2 :: map (transcription_line Sim.runtime) kept2))
    ∧ sublist kept2 kept1.
Proof.
  destruct (speech_report_monotone Sim.runtime Demo.speech
              (Q2Qc (1 # 2)) default_min_confidence Scenario.fresh)
    as (header1 & kept1 & header2 & kept2 & H1 & H2 & Hsub & _).
  - repeat constructor; discriminate.
  - vm_compute. discriminate.
  - exists header1, kept1, header2, kept2. auto.
Defined.

(** ** Sorting what is sorted *)

Section SortAgain.
Context {A : Type} (key : A → float).

Lemma StronglySorted_rev_ge (l : list A) :
  StronglySorted (key_ge key) l → StronglySorted (key_le key) (rev l).
Proof.
  induction 1 as [|y l Hl IH Hy]; cbn [rev]; [constructor|].
  apply StronglySorted_snoc; [exact IH|].
  apply Forall_rev. exact Hy.
Qed.

(** The insertion sort leaves an ascending list as it is. *)
Lemma sort_asc_id (l : list A) :
  StronglySorted (key_le key) l → Py.sort_asc (key_lt key) l = l.
Proof.
  induction 1 as [|x l Hl IH Hx]; cbn [Py.sort_asc]; [reflexivity|].
  rewrite IH. destruct l as [|y l']; [reflexivity|].
  cbn [Py.insert_by]. inversion Hx as [|? ? Hxy _]; subst.
  unfold key_lt at 1, float_lt. rewrite bool_decide_eq_false_2; [reflexivity|].
  apply Qcle_not_lt, Hxy.
Qed.

Lemma sort_desc_id (l : list A) :
  StronglySorted (key_ge key) l →
  rev (Py.sort_asc (key_lt key) (rev l)) = l.
Proof.
  intros Hl. rewrite (sort_asc_id _ (StronglySorted_rev_ge l Hl)).
  apply rev_involutive.
Qed.

End SortAgain.

(** X10: sorting is idempotent: what
    [sorted_by_first_segment_confidence] returns, it returns again when
    given its own outcome. *)
Theorem sorted_twice (annotations labels : list LabelAnnotation.t) :
  sorted_by_first_segment_confidence annotations = Ok labels →
  sorted_by_first_segment_confidence labels = Ok labels.
Proof.
  intros Hsorted.
  pose proof (sorted_inv _ _ Hsorted) as Hseg.
  assert (Hkeys : ∀ l : list LabelAnnotation.t,
             Forall has_segment l →
             Forall (fun a => first_segment_confidence a = Ok (first_confidence a)) l).
  { intros l Hl. eapply Forall_impl; [exact Hl|].
    intros label. apply first_segment_confidence_total. }
  unfold sorted_by_first_segment_confidence in *.
  rewrite (sorted_reverse first_confidence _ _ (Hkeys _ Hseg)) in Hsorted.
  injection Hsorted as <-.
  destruct (sort_desc_facts first_confidence annotations) as (Hperm & Hdesc & _).
  rewrite (sorted_reverse first_confidence).
  - rewrite (sort_desc_id first_confidence _ Hdesc). reflexivity.
  - apply Hkeys. rewrite <- Hperm. exact Hseg.
Qed.

(** The sample labels, sorted once and again. *)
Lemma sorted_twice_demo :
  sorted_by_first_segment_confidence [Demo.dog; Demo.cat; Demo.cow]
  = Ok [Demo.dog; Demo.cat; Demo.cow].
Proof.
  apply (sorted_twice [Demo.cat; Demo.dog; Demo.cow]).
  vm_compute. reflexivity.
Defined.

(** ** The provisioner beyond the fetch *)

(** X11: an exception raised by the create of the label table leaves the
    provisioner, also when it is a [NotFound] (a missing dataset) or a
    conflict (the table created meanwhile): the [except] clause guards the
    fetch only.  Nothing is printed, and the transcript table is neither
    fetched nor created. *)
Theorem provisioner_create_failure {W} (cloud : Cloud W) (s : State W)
        (e e' : exn) (w1 w2 : W) :
  get_table cloud table_ref_labels (world s) = (Raise e, w1) →
  isinstance_NotFound e = true →
  create_table cloud {| Table.reference := table_ref_labels;
                        Table.schema := schema_labels |} w1 = (Raise e', w2) →
  create_bigquery_tables cloud s
  = (Raise e',
     {| stdout := stdout s;
        calls := calls s
                 ++ [CallGetTable table_ref_labels;
                     CallCreateTable {| Table.reference := table_ref_labels;
                                        Table.schema := schema_labels |}];
        world := w2 |}).
Proof.
  intros Hget He Hcreate.
  rewrite create_bigquery_tables_run, create_table_unless_found_run.
  cbv zeta. rewrite Hget, He, Hcreate, <- app_assoc. reflexivity.
Qed.

(** The label table appears between the fetch and the create. *)
Lemma provisioner_create_failure_race :
  fst (create_bigquery_tables Sim.cloud Scenario.racing)
  = Raise (GoogleCloudError "Conflict" "409 Already Exists: Table annotation_labels")
  ∧ stdout (snd (create_bigquery_tables Sim.cloud Scenario.racing)) = []
  ∧ length (calls (snd (create_bigquery_tables Sim.cloud Scenario.racing))) = 2.
Proof.
  rewrite (provisioner_create_failure Sim.cloud Scenario.racing
             (NotFound "404 Not found: Table annotation_labels")
             (GoogleCloudError "Conflict" "409 Already Exists: Table annotation_labels")
             (world Scenario.racing) (world Scenario.racing)).
  - auto.
  - vm_compute. reflexivity.
  - reflexivity.
  - vm_compute. reflexivity.
Defined.

(** The calls of one block. *)
Lemma create_table_unless_found_calls {W} (cloud : Cloud W)
      (ref : TableReference) (schema : list SchemaField) (s : State W) :
  ∃ trace,
    calls (snd (create_table_unless_found cloud ref schema s)) = calls s ++ trace
    ∧ (trace = [CallGetTable ref]
       ∨ trace = [CallGetTable ref;
                  CallCreateTable {| Table.reference := ref; Table.schema := schema |}]).
Proof.
  rewrite create_table_unless_found_run. cbv zeta.
  destruct (get_table cloud ref (world s)) as [[found|e] w1]; [eauto|].
  destruct (isinstance_NotFound e); [|eauto].
  destruct (create_table cloud _ w1) as [[created|e'] w2];
    cbn [snd calls]; rewrite <- app_assoc; eauto.
Qed.

Lemma provisioning_trace (ref : TableReference) (schema : list SchemaField)
      (trace : list Call) :
  ref = table_ref_labels ∧ schema = schema_labels
  ∨ ref = table_ref_transcript ∧ schema = schema_transcript →
  trace = [CallGetTable ref]
  ∨ trace = [CallGetTable ref;
             CallCreateTable {| Table.reference := ref; Table.schema := schema |}] →
  Forall is_provisioning_call trace ∧ 1 <= length trace <= 2.
Proof.
  intros [[-> ->] | [-> ->]] [-> | ->]; (split; [|cbn; lia]);
    repeat (apply List.Forall_cons; [cbn; auto|]); apply List.Forall_nil.
Qed.

(** The calls of the provisioner. *)
Lemma create_bigquery_tables_calls {W} (cloud : Cloud W) (s : State W) :
  ∃ trace,
    calls (snd (create_bigquery_tables cloud s)) = calls s ++ trace
    ∧ Forall is_provisioning_call trace
    ∧ 1 <= length trace <= 4.
Proof.
  rewrite create_bigquery_tables_run.
  destruct (create_table_unless_found_calls cloud table_ref_labels schema_labels s)
    as (t1 & H1 & Ht1).
  assert (Hshape1 : Forall is_provisioning_call t1 ∧ 1 <= length t1 <= 2)
    by (eapply provisioning_trace; [left; split; reflexivity | exact Ht1]).
  destruct (create_table_unless_found cloud table_ref_labels schema_labels s)
    as [[[]|e] s1]; cbn [snd] in *.
  - destruct (create_table_unless_found_calls cloud table_ref_transcript
                schema_transcript s1) as (t2 & H2 & Ht2).
    exists (t1 ++ t2). rewrite H2, H1, <- app_assoc.
    split; [reflexivity|].
    assert (Hshape2 : Forall is_provisioning_call t2 ∧ 1 <= length t2 <= 2)
      by (eapply provisioning_trace; [right; split; reflexivity | exact Ht2]).
    split; [apply Forall_app; tauto | rewrite length_app; lia].
  - exists t1. split; [exact H1|]. split; [tauto | lia].
Qed.

(** X12: whatever the store answers, the provisioner makes between one
    and four calls, each a fetch of one of the two tables or a create of one
    of them with its own schema: it appends no row, does not call the
    annotation service, and names no other table. *)
Theorem provisioner_calls {W} (cloud : Cloud W) (s : State W) :
  ∃ trace,
    calls (snd (create_bigquery_tables cloud s)) = calls s ++ trace
    ∧ Forall is_provisioning_call trace
    ∧ 1 <= length trace <= 4
    ∧ head trace = Some (CallGetTable table_ref_labels).
Proof.
  destruct (create_bigquery_tables_calls cloud s) as (trace & Hcalls & Hshape & Hlen).
  exists trace. split; [exact Hcalls|]. split; [exact Hshape|]. split; [exact Hlen|].
  rewrite create_bigquery_tables_run in Hcalls.
  destruct (create_table_unless_found_calls cloud table_ref_labels schema_labels s)
    as (t1 & H1 & Ht1).
  destruct (create_table_unless_found cloud table_ref_labels schema_labels s)
    as [[[]|e] s1]; cbn [snd] in *.
  - destruct (create_table_unless_found_calls cloud table_ref_transcript
                schema_transcript s1) as (t2 & H2 & _).
    rewrite H2, H1, <- app_assoc in Hcalls. apply app_inv_head in Hcalls as <-.
    destruct Ht1 as [-> | ->]; reflexivity.
  - rewrite H1 in Hcalls. apply app_inv_head in Hcalls as <-.
    destruct Ht1 as [-> | ->]; reflexivity.
Qed.

(** One block over the store of [Sim], whether the table is there or not. *)
Lemma sim_block (ref : TableReference) (schema : list SchemaField)
      (s : State Sim.t) :
  Sim.get_fault (world s) = None →
  ∃ s',
    create_table_unless_found Sim.cloud ref schema s = (Ok tt, s')
    ∧ Sim.get_fault (world s') = None
    ∧ Sim.inserted (world s') = Sim.inserted (world s)
    ∧ (∀ k v, Sim.tables (world s) !! k = Some v →
              Sim.tables (world s') !! k = Some v)
    ∧ (∀ k, k ≠ Sim.key ref →
            Sim.tables (world s') !! k = Sim.tables (world s) !! k)
    ∧ is_Some (Sim.tables (world s') !! Sim.key ref)
    ∧ (Sim.tables (world s) !! Sim.key ref = None →
       Sim.tables (world s') !! Sim.key ref = Some schema).
Proof.
  intros Hfault.
  destruct (Sim.tables (world s) !! Sim.key ref) as [found|] eqn:Hlook.
  - eexists. split; [apply (sim_block_present ref schema found s Hfault Hlook)|].
    cbn [world]. split; [exact Hfault|]. split; [reflexivity|].
    split; [auto|]. split; [auto|]. split; [rewrite Hlook; eauto | discriminate].
  - eexists. split; [apply (sim_block_absent ref schema s Hfault Hlook)|].
    cbn [world Sim.with_tables Sim.get_fault Sim.inserted Sim.tables].
    split; [exact Hfault|]. split; [reflexivity|].
    split.
    { intros k v Hk. rewrite lookup_insert_ne; [exact Hk | congruence]. }
    split.
    { intros k Hk. apply lookup_insert_ne. congruence. }
    rewrite lookup_insert_eq. eauto.
Qed.

(** X13: over the store of [Sim], when fetches do not fail, the
    provisioner returns; every table the store held is still there with the
    schema it had, also a provisioned table whose schema differs from the
    handler's; the two tables exist afterwards, with the handler's schema
    where they were missing; no other table appears and no row is appended. *)
Theorem provisioner_keeps_tables (s : State Sim.t) :
  Sim.get_fault (world s) = None →
  let before := Sim.tables (world s) in
  let out := create_bigquery_tables Sim.cloud s in
  let after := Sim.tables (world (snd out)) in
  fst out = Ok tt
  ∧ (∀ k v, before !! k = Some v → after !! k = Some v)
  ∧ (∀ k, k ≠ Sim.key table_ref_labels → k ≠ Sim.key table_ref_transcript →
          after !! k = before !! k)
  ∧ (before !! Sim.key table_ref_labels = None →
     after !! Sim.key table_ref_labels = Some schema_labels)
  ∧ (before !! Sim.key table_ref_transcript = None →
     after !! Sim.key table_ref_transcript = Some schema_transcript)
  ∧ Sim.inserted (world (snd out)) = Sim.inserted (world s).
Proof.
  intros Hfault. cbv zeta. rewrite create_bigquery_tables_run.
  destruct (sim_block table_ref_labels schema_labels s Hfault)
    as (s1 & -> & Hfault1 & Hins1 & Hkeep1 & Hother1 & _ & Hnew1).
  destruct (sim_block table_ref_transcript schema_transcript s1 Hfault1)
    as (s2 & -> & _ & Hins2 & Hkeep2 & Hother2 & _ & Hnew2).
  cbn [fst snd].
  split; [reflexivity|]. split; [auto|].
  split; [intros k Hl Ht; rewrite Hother2, Hother1; auto|].
  split; [auto|].
  split; [|congruence].
  intros Habsent. apply Hnew2. rewrite Hother1; [exact Habsent | discriminate].
Qed.

(** The label table exists with one column: it keeps that schema, and the
    transcript table is created beside it. *)
Lemma provisioner_keeps_tables_half :
  let after :=
    Sim.tables (world (snd (create_bigquery_tables Sim.cloud
                              Scenario.half_provisioned))) in
  after !! Sim.key table_ref_labels
  = Some [ {| field_name := "file_name"; field_type := "STRING";
              field_mode := "REQUIRED" |} ]
  ∧ after !! Sim.key table_ref_transcript = Some schema_transcript.
Proof.
  cbv zeta.
  destruct (provisioner_keeps_tables Scenario.half_provisioned eq_refl)
    as (_ & Hkeep & _ & _ & Hnew & _).
  split; [apply Hkeep | apply Hnew]; vm_compute; reflexivity.
Defined.

(** X14: over the store of [Sim], when fetches do not fail, a run of the
    provisioner that follows another one fetches the two tables and does
    nothing else: it creates nothing and leaves the store as it is,
    whatever the store held before the first run. *)
Theorem provisioner_rerun (s : State Sim.t) :
  Sim.get_fault (world s) = None →
  let out1 := create_bigquery_tables Sim.cloud s in
  let out2 := create_bigquery_tables Sim.cloud (snd out1) in
  fst out2 = Ok tt
  ∧ calls (snd out2)
    = calls (snd out1)
      ++ [CallGetTable table_ref_labels; CallGetTable table_ref_transcript]
  ∧ world (snd out2) = world (snd out1).
Proof.
  intros Hfault. cbv zeta. rewrite (create_bigquery_tables_run Sim.cloud s).
  destruct (sim_block table_ref_labels schema_labels s Hfault)
    as (s1 & -> & Hfault1 & _ & _ & _ & [found_l Hl] & _).
  destruct (sim_block table_ref_transcript schema_transcript s1 Hfault1)
    as (s2 & -> & Hfault2 & _ & Hkeep2 & _ & [found_t Ht] & _).
  cbn [snd]. rewrite create_bigquery_tables_run.
  rewrite (sim_block_present table_ref_labels schema_labels found_l s2 Hfault2
             (Hkeep2 _ _ Hl)).
  rewrite (sim_block_present table_ref_transcript schema_transcript found_t);
    [| exact Hfault2 | exact Ht].
  cbn [fst snd calls world]. rewrite <- app_assoc. auto.
Qed.

(** A second run over the half-provisioned store. *)
Lemma provisioner_rerun_half :
  let out1 := create_bigquery_tables Sim.cloud Scenario.half_provisioned in
  let out2 := create_bigquery_tables Sim.cloud (snd out1) in
  fst out2 = Ok tt ∧ world (snd out2) = world (snd out1).
Proof.
  cbv zeta.
  destruct (provisioner_rerun Scenario.half_provisioned eq_refl) as (H1 & _ & H2).
  auto.
Defined.

(** ** The row-append step at its edges *)

Lemma transcript_row_bare (file_name : string) (t : SpeechTranscription.t) :
  SpeechTranscription.alternatives t = [] →
  transcript_row file_name t = Raise IndexError.
Proof. unfold transcript_row. intros ->. reflexivity. Qed.

Lemma transcript_row_raises (file_name : string) (t : SpeechTranscription.t)
      (e : exn) :
  transcript_row file_name t = Raise e → e = IndexError.
Proof.
  unfold transcript_row.
  destruct (getitem (SpeechTranscription.alternatives t) 0) as [a|e'] eqn:Hget;
    cbn [rbind]; [discriminate|].
  intros [= <-]. eapply getitem_raises, Hget.
Qed.

Lemma transcript_loop_raises (file_name : string) (l : list SpeechTranscription.t)
      (acc : list TranscriptRow.t) (e : exn) :
  Py.foldl
    (fun (rows : list TranscriptRow.t) transcription =>
       try! row := transcript_row file_name transcription in
       Ok (rows ++ [row])%list) l acc = Raise e →
  e = IndexError.
Proof.
  revert acc. induction l as [|t l IH]; intros acc; cbn [Py.foldl]; [discriminate|].
  destruct (transcript_row file_name t) as [row|e'] eqn:Hrow; cbn [rbind].
  - apply IH.
  - intros [= <-]. eapply transcript_row_raises, Hrow.
Qed.

Lemma transcript_loop_bare (file_name : string) (l : list SpeechTranscription.t)
      (acc : list TranscriptRow.t) :
  Exists (fun t => SpeechTranscription.alternatives t = []) l →
  Py.foldl
    (fun (rows : list TranscriptRow.t) transcription =>
       try! row := transcript_row file_name transcription in
       Ok (rows ++ [row])%list) l acc = Raise IndexError.
Proof.
  intros Hbare. revert acc.
  induction Hbare as [t l Hb | t l _ IH]; intros acc; cbn [Py.foldl].
  - rewrite (transcript_row_bare file_name t Hb). reflexivity.
  - destruct (transcript_row file_name t) as [row|e] eqn:Hrow; cbn [rbind].
    + apply IH.
    + rewrite (transcript_row_raises _ _ _ Hrow). reflexivity.
Qed.

(** The projection raises nothing but [IndexError]. *)
Lemma project_raises (rt : Runtime) (video_uri : string)
      (rl rtr : VideoAnnotationResults.t) (e : exn) :
  project rt video_uri rl rtr = Raise e → e = IndexError.
Proof.
  unfold project.
  destruct (file_name_total video_uri) as [file_name ->]. cbn [rbind].
  destruct (Py.foldl _ _ _) as [out|e'] eqn:Hloop; cbn [rbind]; [discriminate|].
  intros [= <-]. eapply transcript_loop_raises, Hloop.
Qed.

Lemma project_bare (rt : Runtime) (video_uri : string)
      (rl rtr : VideoAnnotationResults.t) :
  Exists (fun t => SpeechTranscription.alternatives t = [])
         (VideoAnnotationResults.speech_transcriptions rtr) →
  project rt video_uri rl rtr = Raise IndexError.
Proof.
  intros Hbare. unfold project.
  destruct (file_name_total video_uri) as [file_name ->]. cbn [rbind].
  rewrite (transcript_loop_bare file_name _ [] Hbare). reflexivity.
Qed.

Lemma getitem_short {A} (l : list A) :
  length l < 2 →
  getitem l 0 = Raise IndexError
  ∨ ∃ x, l = [x] ∧ getitem l 0 = Ok x ∧ getitem l 1 = Raise IndexError.
Proof.
  destruct l as [|x [|y l]]; cbn [length]; intros Hlen.
  - left. reflexivity.
  - right. exists x. split; [reflexivity|]. split; reflexivity.
  - lia.
Qed.

(** X15: given fewer than two result objects, [store_results_in_bigquery]
    raises [IndexError] at once: nothing is printed and no append is
    issued. *)
Theorem store_results_short {W} (cloud : Cloud W) (rt : Runtime) (video_uri : string)
        (results : list VideoAnnotationResults.t) (s : State W) :
  length results < 2 →
  store_results_in_bigquery cloud rt video_uri results s = (Raise IndexError, s).
Proof.
  intros Hlen. unfold store_results_in_bigquery.
  destruct (getitem_short results Hlen) as [H0 | (x & -> & H0 & H1)].
  - unfold bind at 1, lift at 1. rewrite H0. reflexivity.
  - unfold bind at 1 2, lift at 1 2. rewrite H0, H1. reflexivity.
Qed.

(** The label results alone. *)
Lemma store_results_short_one :
  store_results_in_bigquery Sim.cloud Sim.runtime Demo.video_uri [Demo.labels]
                            Scenario.fresh
  = (Raise IndexError, Scenario.fresh).
Proof.
  apply (store_results_short Sim.cloud Sim.runtime Demo.video_uri [Demo.labels]
           Scenario.fresh).
  cbn. lia.
Defined.

(** X16: one transcription without alternative makes
    [store_results_in_bigquery] raise [IndexError] before any append: the
    label rows, although complete, are not sent, and nothing is printed. *)
Theorem store_results_bare {W} (cloud : Cloud W) (rt : Runtime) (video_uri : string)
        (rl rtr : VideoAnnotationResults.t) (rest : list VideoAnnotationResults.t)
        (s : State W) :
  Exists (fun t => SpeechTranscription.alternatives t = [])
         (VideoAnnotationResults.speech_transcriptions rtr) →
  store_results_in_bigquery cloud rt video_uri (rl :: rtr :: rest) s
  = (Raise IndexError, s).
Proof.
  intros Hbare. unfold store_results_in_bigquery.
  rewrite getitem_0_cons, getitem_1_cons. unfold bind at 1 2 3, lift.
  rewrite (project_bare rt video_uri rl rtr Hbare). reflexivity.
Qed.

(** The sample labels with a transcription that has no alternative. *)
Lemma store_results_bare_demo :
  store_results_in_bigquery Sim.cloud Sim.runtime Demo.video_uri
                            [Demo.labels; Scenario.bare_speech] Scenario.fresh
  = (Raise IndexError, Scenario.fresh).
Proof.
  apply (store_results_bare Sim.cloud Sim.runtime Demo.video_uri
           Demo.labels Scenario.bare_speech [] Scenario.fresh).
  apply Exists_cons_tl, Exists_cons_hd. reflexivity.
Defined.

(** The calls of [store_results_in_bigquery]. *)
Lemma store_results_calls {W} (cloud : Cloud W) (rt : Runtime) (video_uri : string)
      (results : list VideoAnnotationResults.t) (s : State W) :
  ∃ trace,
    calls (snd (store_results_in_bigquery cloud rt video_uri results s))
    = calls s ++ trace
    ∧ Forall is_append_call trace
    ∧ length trace <= 2.
Proof.
  assert (Hnone : ∀ e, ∃ trace,
             calls (snd (@Raise unit e, s)) = calls s ++ trace
             ∧ Forall is_append_call trace ∧ length trace <= 2).
  { intros e. exists []. split; [symmetry; apply app_nil_r|].
    split; [constructor | cbn; lia]. }
  unfold store_results_in_bigquery.
  destruct results as [|rl [|rtr rest]]; [apply Hnone | apply Hnone |].
  rewrite getitem_0_cons, getitem_1_cons. unfold bind at 1 2 3, lift.
  destruct (project rt video_uri rl rtr) as [[lrows trows]|e]; [|apply Hnone].
  cbn [fst snd].
  destruct (append_rows_calls cloud rt (map RowOfLabel lrows)
              (map RowOfTranscript trows) s) as (trace & -> & [-> | ->]);
    eexists; (split; [reflexivity|]);
    (split; [repeat (apply List.Forall_cons; [cbn; auto|]); apply List.Forall_nil
            | cbn; lia]).
Qed.

(** X17: whatever the store answers and whatever the results hold,
    [store_results_in_bigquery] never raises an instance of
    [GoogleCloudError], and it makes at most two calls, each an append to
    one of the two tables: it fetches and creates nothing. *)
Theorem store_results_contained {W} (cloud : Cloud W) (rt : Runtime)
        (video_uri : string) (results : list VideoAnnotationResults.t)
        (s : State W) :
  let out := store_results_in_bigquery cloud rt video_uri results s in
  match fst out with
  | Ok _ => True
  | Raise e => isinstance_GoogleCloudError e = false
  end
  ∧ ∃ trace,
      calls (snd out) = calls s ++ trace
      ∧ Forall is_append_call trace
      ∧ length trace <= 2.
Proof.
  cbv zeta. split; [|apply store_results_calls].
  unfold store_results_in_bigquery.
  destruct results as [|rl [|rtr rest]]; [reflexivity | reflexivity |].
  rewrite getitem_0_cons, getitem_1_cons. unfold bind at 1 2 3, lift.
  destruct (project rt video_uri rl rtr) as [[lrows trows]|e] eqn:Hp.
  - apply append_rows_result.
  - cbn [fst]. rewrite (project_raises _ _ _ _ _ Hp). reflexivity.
Qed.

(** ** The orchestrator at its edges *)

(** X18: an exception raised by one of the two appends that is no
    instance of [GoogleCloudError] (a time-out of the retries, a transport
    or credentials error) is not caught: when the steps before the appends
    have returned, [process_video] raises it. *)
Theorem append_failure_propagates {W} (cloud : Cloud W) (rt : Runtime)
        (event : gmap string string) (bucket name : string)
        (rl rtr : VideoAnnotationResults.t) (rest : list VideoAnnotationResults.t)
        (lrows : list LabelRow.t) (trows : list TranscriptRow.t)
        (s s1 s2 s3 s4 : State W) (e : exn) :
  event !! "bucket" = Some bucket →
  event !! "name" = Some name →
  analyze_video cloud rt event s = (Ok (rl :: rtr :: rest), s1) →
  print_video_labels rt rl s1 = (Ok tt, s2) →
  print_video_speech rt rtr default_min_confidence s2 = (Ok tt, s3) →
  create_bigquery_tables cloud s3 = (Ok tt, s4) →
  project rt ("gs://" +:+ bucket +:+ "/" +:+ name) rl rtr = Ok (lrows, trows) →
  isinstance_GoogleCloudError e = false →
  (fst (insert_rows_json cloud table_ref_labels (map RowOfLabel lrows) (world s4))
   = Raise e
   ∨ ∃ errs,
       fst (insert_rows_json cloud table_ref_labels (map RowOfLabel lrows) (world s4))
       = Ok errs
       ∧ fst (insert_rows_json cloud table_ref_transcript (map RowOfTranscript trows)
                (snd (insert_rows_json cloud table_ref_labels
                        (map RowOfLabel lrows) (world s4))))
         = Raise e) →
  fst (process_video cloud rt event s) = Raise e.
Proof.
  intros Hb Hn Ha Hl Hs Hc Hp He Hfail.
  rewrite (process_video_steps cloud rt event bucket name rl rtr rest
             s s1 s2 s3 s4 Hb Hn Ha Hl Hs Hc).
  rewrite (store_results_projected cloud rt _ rl rtr rest lrows trows s4 Hp).
  destruct (insert_rows_json cloud table_ref_labels (map RowOfLabel lrows) (world s4))
    as [r_l w1] eqn:H1.
  destruct Hfail as [Hl1 | (errs & Hl1 & Ht)]; cbn [fst snd] in *; subst r_l.
  - rewrite (append_rows_labels_raise cloud rt _ _ _ _ _ H1), He. reflexivity.
  - destruct (insert_rows_json cloud table_ref_transcript (map RowOfTranscript trows) w1)
      as [r_t w2] eqn:H2.
    cbn [fst] in Ht. subst r_t.
    rewrite (append_rows_labels_return cloud rt _ _ _ _ _ _ _ H1 H2), He.
    reflexivity.
Qed.

(** The retries of the label append time out. *)
Lemma append_failure_propagates_timeout :
  fst (process_video Sim.cloud Sim.runtime Demo.event Scenario.timing_out)
  = Raise Scenario.timeout.
Proof.
  pose (s1 := snd (analyze_video Sim.cloud Sim.runtime Demo.event Scenario.timing_out)).
  pose (s2 := snd (print_video_labels Sim.runtime Demo.labels s1)).
  pose (s3 := snd (print_video_speech Sim.runtime Demo.speech default_min_confidence s2)).
  pose (s4 := snd (create_bigquery_tables Sim.cloud s3)).
  apply (append_failure_propagates Sim.cloud Sim.runtime Demo.event "b" "clip.mp4"
           Demo.labels Demo.speech [] (fst Demo.rows) (snd Demo.rows)
           Scenario.timing_out s1 s2 s3 s4 Scenario.timeout).
  - vm_compute; reflexivity.
  - vm_compute; reflexivity.
  - vm_compute; reflexivity.
  - vm_compute; reflexivity.
  - vm_compute; reflexivity.
  - vm_compute; reflexivity.
  - vm_compute; reflexivity.
  - reflexivity.
  - left. vm_compute. reflexivity.
Defined.

Lemma sorted_raises (labels : list LabelAnnotation.t) (e : exn) :
  sorted_by_first_segment_confidence labels = Raise e → e = IndexError.
Proof.
  unfold sorted_by_first_segment_confidence, Py.sorted.
  destruct (Py.decorate first_segment_confidence labels) as [keyed|e'] eqn:Hdec;
    cbn [rbind]; [discriminate|].
  intros [= <-]. revert e' Hdec.
  induction labels as [|label l IH]; intros e'; cbn [Py.decorate]; [discriminate|].
  destruct (first_segment_confidence_cases label) as [-> | [-> _]]; cbn [rbind].
  - congruence.
  - destruct (Py.decorate first_segment_confidence l) as [rest|e'']; cbn [rbind];
      [discriminate|].
    intros [= <-]. apply IH. reflexivity.
Qed.

Lemma print_video_labels_raises {W} (rt : Runtime)
      (results : VideoAnnotationResults.t) (s s' : State W) (e : exn) :
  print_video_labels rt results s = (Raise e, s') → e = IndexError.
Proof.
  destruct (sorted_by_first_segment_confidence
              (VideoAnnotationResults.segment_label_annotations results))
    as [labels|e'] eqn:Hsorted.
  - rewrite (print_video_labels_run rt results labels s Hsorted). discriminate.
  - unfold print_video_labels. unfold bind at 1, lift. rewrite Hsorted.
    intros [= <- _]. eapply sorted_raises, Hsorted.
Qed.

(** X19: when the annotation service answers with fewer than two result
    objects, [process_video] raises [IndexError]; after the call to the
    annotation service it makes no call, so no table is fetched or created
    and no row is appended. *)
Theorem process_video_short_results {W} (cloud : Cloud W) (rt : Runtime)
        (event : gmap string string) (bucket name : string)
        (results : list VideoAnnotationResults.t) (s s1 : State W) :
  event !! "bucket" = Some bucket →
  event !! "name" = Some name →
  analyze_video cloud rt event s = (Ok results, s1) →
  length results < 2 →
  fst (process_video cloud rt event s) = Raise IndexError
  ∧ calls (snd (process_video cloud rt event s)) = calls s1
  ∧ world (snd (process_video cloud rt event s)) = world s1.
Proof.
  intros Hb Hn Ha Hlen.
  assert (Hrun : ∃ lines,
             process_video cloud rt event s = (Raise IndexError, printed s1 lines)).
  { unfold process_video, dict_getitem. rewrite Hb, Hn.
    unfold bind at 1 2 3, lift at 1 2. rewrite Ha.
    destruct (getitem_short results Hlen) as [H0 | (rl & -> & H0 & H1)].
    - exists []. unfold bind at 1, lift at 1. rewrite H0, printed_nil. reflexivity.
    - unfold bind at 1 2, lift at 1. rewrite H0.
      destruct (print_video_labels_prints rt rl s1) as [lines Hlines].
      exists lines.
      destruct (print_video_labels rt rl s1) as [[[]|e] s2] eqn:Hprint;
        cbn [snd] in Hlines; subst s2.
      + unfold bind at 1, lift at 1. rewrite H1. reflexivity.
      + rewrite (print_video_labels_raises _ _ _ _ _ Hprint). reflexivity. }
  destruct Hrun as [lines ->]. cbn. auto.
Qed.

(** The service answers with the label results alone. *)
Lemma process_video_short_results_one :
  let s := Sim.start (Sim.empty (Ok [Demo.labels])) in
  fst (process_video Sim.cloud Sim.runtime Demo.event s) = Raise IndexError
  ∧ length (calls (snd (process_video Sim.cloud Sim.runtime Demo.event s))) = 1.
Proof.
  cbv zeta.
  destruct (process_video_short_results Sim.cloud Sim.runtime Demo.event
              "b" "clip.mp4" [Demo.labels]
              (Sim.start (Sim.empty (Ok [Demo.labels])))
              (snd (analyze_video Sim.cloud Sim.runtime Demo.event
                      (Sim.start (Sim.empty (Ok [Demo.labels]))))))
    as (Hraise & Hcalls & _).
  - vm_compute; reflexivity.
  - vm_compute; reflexivity.
  - vm_compute; reflexivity.
  - cbn. lia.
  - split; [exact Hraise|]. rewrite Hcalls. vm_compute. reflexivity.
Defined.

(** X20: when the fetch of the label table raises anything but
    [NotFound] after the reports have been printed, [process_video] raises
    that exception: the fetch is the last call made, nothing more is
    printed, and no row is appended. *)
Theorem provisioning_failure_aborts {W} (cloud : Cloud W) (rt : Runtime)
        (event : gmap string string) (bucket name : string)
        (rl rtr : VideoAnnotationResults.t) (rest : list VideoAnnotationResults.t)
        (s s1 s2 s3 : State W) (e : exn) (w : W) :
  event !! "bucket" = Some bucket →
  event !! "name" = Some name →
  analyze_video cloud rt event s = (Ok (rl :: rtr :: rest), s1) →
  print_video_labels rt rl s1 = (Ok tt, s2) →
  print_video_speech rt rtr default_min_confidence s2 = (Ok tt, s3) →
  get_table cloud table_ref_labels (world s3) = (Raise e, w) →
  isinstance_NotFound e = false →
  process_video cloud rt event s
  = (Raise e,
     {| stdout := stdout s3;
        calls := calls s3 ++ [CallGetTable table_ref_labels];
        world := w |}).
Proof.
  intros Hb Hn Ha Hl Hs Hget He. unfold process_video, dict_getitem.
  rewrite Hb, Hn. unfold bind at 1 2 3, lift at 1 2. rewrite Ha.
  rewrite getitem_0_cons. unfold bind at 1 2, lift at 1. rewrite Hl.
  rewrite getitem_1_cons. unfold bind at 1 2, lift at 1. rewrite Hs.
  unfold bind at 1.
  rewrite create_bigquery_tables_run, create_table_unless_found_run.
  cbv zeta. rewrite Hget, He. reflexivity.
Qed.

(** The store refuses the fetch. *)
Lemma provisioning_failure_aborts_forbidden :
  fst (process_video Sim.cloud Sim.runtime Demo.event Scenario.refusing)
  = Raise Scenario.forbidden
  ∧ last (calls (snd (process_video Sim.cloud Sim.runtime Demo.event
                        Scenario.refusing)))
    = Some (CallGetTable table_ref_labels).
Proof.
  pose (s1 := snd (analyze_video Sim.cloud Sim.runtime Demo.event Scenario.refusing)).
  pose (s2 := snd (print_video_labels Sim.runtime Demo.labels s1)).
  pose (s3 := snd (print_video_speech Sim.runtime Demo.speech default_min_confidence s2)).
  rewrite (provisioning_failure_aborts Sim.cloud Sim.runtime Demo.event "b" "clip.mp4"
             Demo.labels Demo.speech [] Scenario.refusing s1 s2 s3
             Scenario.forbidden (world s3)).
  - cbn [fst snd calls]. rewrite last_snoc. auto.
  - vm_compute; reflexivity.
  - vm_compute; reflexivity.
  - vm_compute; reflexivity.
  - vm_compute; reflexivity.
  - vm_compute; reflexivity.
  - vm_compute; reflexivity.
  - reflexivity.
Defined.



(** ** Runs over the store of [Sim] *)

(** The store accepts every row: both appends are made and recorded. *)
Lemma sim_append_rows_ok (rt : Runtime) (rows_l rows_t : list Row) (s : State Sim.t) :
  Sim.insert_labels (world s) = Ok [] →
  Sim.insert_transcript (world s) = Ok [] →
  append_rows Sim.cloud rt rows_l rows_t s
  = (Ok tt,
     {| stdout := (stdout s ++ [insert_report rt "labels" []])
                    ++ [insert_report rt "transcript" []];
        calls := (calls s ++ [CallInsertRowsJson table_ref_labels rows_l])
                   ++ [CallInsertRowsJson table_ref_transcript rows_t];
        world := Sim.with_inserted (world s)
                   ((Sim.inserted (world s) ++ [(table_ref_labels, rows_l)])
                      ++ [(table_ref_transcript, rows_t)]) |}).
Proof.
  intros Hl Ht.
  rewrite (append_rows_labels_return Sim.cloud rt rows_l rows_t s []
             (Sim.with_inserted (world s)
                (Sim.inserted (world s) ++ [(table_ref_labels, rows_l)]))
             (Ok [])
             (Sim.with_inserted (world s)
                ((Sim.inserted (world s) ++ [(table_ref_labels, rows_l)])
                   ++ [(table_ref_transcript, rows_t)]))).
  - reflexivity.
  - cbn [insert_rows_json Sim.cloud]. unfold Sim.insert_rows_json.
    cbn [table_id table_ref_labels]. rewrite String.eqb_refl, Hl. reflexivity.
  - cbn [insert_rows_json Sim.cloud]. unfold Sim.insert_rows_json.
    cbn [table_id table_ref_transcript Sim.with_inserted Sim.insert_labels
         Sim.insert_transcript Sim.inserted Sim.tables Sim.get_fault Sim.annotation].
    replace (String.eqb TABLE_ID_TRANSCRIPT TABLE_ID_LABELS) with false
      by reflexivity.
    rewrite Ht. reflexivity.
Qed.

(** X22: appends are not deduplicated.  Over the store of [Sim], when it
    accepts every row, running [store_results_in_bigquery] twice on the
    same results records the label rows and the transcript rows twice. *)
Theorem appends_repeat (rt : Runtime) (video_uri : string)
        (rl rtr : VideoAnnotationResults.t) (rest : list VideoAnnotationResults.t)
        (lrows : list LabelRow.t) (trows : list TranscriptRow.t)
        (s : State Sim.t) :
  Sim.insert_labels (world s) = Ok [] →
  Sim.insert_transcript (world s) = Ok [] →
  project rt video_uri rl rtr = Ok (lrows, trows) →
  let results := rl :: rtr :: rest in
  let out1 := store_results_in_bigquery Sim.cloud rt video_uri results s in
  let out2 := store_results_in_bigquery Sim.cloud rt video_uri results (snd out1) in
  fst out1 = Ok tt
  ∧ fst out2 = Ok tt
  ∧ Sim.inserted (world (snd out2))
    = Sim.inserted (world s)
      ++ [ (table_ref_labels, map RowOfLabel lrows);
           (table_ref_transcript, map RowOfTranscript trows);
           (table_ref_labels, map RowOfLabel lrows);
           (table_ref_transcript, map RowOfTranscript trows) ].
Proof.
  intros Hl Ht Hp. cbv zeta.
  rewrite (store_results_projected Sim.cloud rt video_uri rl rtr rest lrows trows s Hp).
  rewrite (sim_append_rows_ok rt _ _ s Hl Ht). cbn [fst snd].
  rewrite (store_results_projected Sim.cloud rt video_uri rl rtr rest lrows trows _ Hp).
  rewrite sim_append_rows_ok; [| exact Hl | exact Ht].
  cbn [fst snd world Sim.with_inserted Sim.inserted].
  rewrite <- !app_assoc. auto.
Qed.

(** The sample results, stored twice in the empty store. *)
Lemma appends_repeat_demo :
  let out1 := store_results_in_bigquery Sim.cloud Sim.runtime Demo.video_uri
                Demo.results Scenario.fresh in
  let out2 := store_results_in_bigquery Sim.cloud Sim.runtime Demo.video_uri
                Demo.results (snd out1) in
  length (Sim.inserted (world (snd out2))) = 4.
Proof.
  cbv zeta.
  destruct (appends_repeat Sim.runtime Demo.video_uri Demo.labels Demo.speech []
              (fst Demo.rows) (snd Demo.rows) Scenario.fresh)
    as (_ & _ & Hins).
  - reflexivity.
  - reflexivity.
  - vm_compute; reflexivity.
  - change [Demo.labels; Demo.speech] with Demo.results in Hins.
    rewrite Hins. reflexivity.
Defined.

(** The blocks of the provisioner leave the scripted answers alone. *)
Lemma sim_block_scripts (ref : TableReference) (schema : list SchemaField)
      (s : State Sim.t) :
  Sim.get_fault (world s) = None →
  let s' := snd (create_table_unless_found Sim.cloud ref schema s) in
  Sim.insert_labels (world s') = Sim.insert_labels (world s)
  ∧ Sim.insert_transcript (world s') = Sim.insert_transcript (world s).
Proof.
  intros Hfault. cbv zeta.
  destruct (Sim.tables (world s) !! Sim.key ref) as [found|] eqn:Hlook.
  - rewrite (sim_block_present ref schema found s Hfault Hlook). auto.
  - rewrite (sim_block_absent ref schema s Hfault Hlook). auto.
Qed.

(** X23: a whole run over the store of [Sim].  When the event has its two
    keys, the service answers with at least two result objects, every label
    has a segment and every transcription an alternative, fetches do not
    fail and the store accepts every row, [process_video] returns; the two
    tables exist afterwards; the store has recorded one append of the
    projected label rows followed by one append of the projected transcript
    rows; and the last line printed reports the transcript rows added. *)
Theorem process_video_succeeds (rt : Runtime) (event : gmap string string)
        (bucket name : string)
        (rl rtr : VideoAnnotationResults.t) (rest : list VideoAnnotationResults.t)
        (s : State Sim.t) :
  event !! "bucket" = Some bucket →
  event !! "name" = Some name →
  Sim.annotation (world s) = Ok (rl :: rtr :: rest) →
  Forall has_segment (VideoAnnotationResults.segment_label_annotations rl) →
  Forall has_alternative (VideoAnnotationResults.speech_transcriptions rtr) →
  Sim.get_fault (world s) = None →
  Sim.insert_labels (world s) = Ok [] →
  Sim.insert_transcript (world s) = Ok [] →
  ∃ lrows trows,
    project rt ("gs://" +:+ bucket +:+ "/" +:+ name) rl rtr = Ok (lrows, trows)
    ∧ fst (process_video Sim.cloud rt event s) = Ok tt
    ∧ Sim.inserted (world (snd (process_video Sim.cloud rt event s)))
      = Sim.inserted (world s)
        ++ [ (table_ref_labels, map RowOfLabel lrows);
             (table_ref_transcript, map RowOfTranscript trows) ]
    ∧ is_Some (Sim.tables (world (snd (process_video Sim.cloud rt event s)))
               !! Sim.key table_ref_labels)
    ∧ is_Some (Sim.tables (world (snd (process_video Sim.cloud rt event s)))
               !! Sim.key table_ref_transcript)
    ∧ last (stdout (snd (process_video Sim.cloud rt event s)))
      = Some "New rows have been added to the 'transcript' table.".
Proof.
  intros Hb Hn Hann Hseg Halt Hfault Hil Hit.
  destruct (project_total rt ("gs://" +:+ bucket +:+ "/" +:+ name) rl rtr Halt)
    as (lrows & trows & Hp).
  exists lrows, trows. split; [exact Hp|].
  destruct (build_request_total event bucket name Hb Hn) as (request & Hreq & _).
  pose proof (analyze_video_run Sim.cloud rt event request s Hreq) as Ha.
  cbn [annotate_video Sim.cloud] in Ha. rewrite Hann in Ha.
  set (s1 := {| stdout := _; calls := calls s ++ [CallAnnotateVideo request];
                world := world s |}) in Ha.
  assert (Hsorted :
    sorted_by_first_segment_confidence
      (VideoAnnotationResults.segment_label_annotations rl)
    = Ok (rev (Py.sort_asc (key_lt first_confidence)
                 (rev (VideoAnnotationResults.segment_label_annotations rl))))).
  { apply (sorted_reverse first_confidence).
    eapply Forall_impl; [exact Hseg|].
    intros label. apply first_segment_confidence_total. }
  pose proof (print_video_labels_run rt rl _ s1 Hsorted) as Hl.
  set (s2 := printed s1 _) in Hl.
  pose proof (print_video_speech_run rt rtr default_min_confidence s2 Halt) as Hs.
  set (s3 := printed s2 _) in Hs.
  assert (Hfault3 : Sim.get_fault (world s3) = None) by exact Hfault.
  destruct (sim_block table_ref_labels schema_labels s3 Hfault3)
    as (s4a & H4a & Hfault4a & Hins4a & _ & _ & Hsome_l & _).
  destruct (sim_block_scripts table_ref_labels schema_labels s3 Hfault3)
    as [Hil4a Hit4a].
  rewrite H4a in Hil4a, Hit4a. cbn [snd] in Hil4a, Hit4a.
  destruct (sim_block table_ref_transcript schema_transcript s4a Hfault4a)
    as (s4 & H4 & _ & Hins4 & Hkeep4 & _ & Hsome_t & _).
  destruct (sim_block_scripts table_ref_transcript schema_transcript s4a Hfault4a)
    as [Hil4 Hit4].
  rewrite H4 in Hil4, Hit4. cbn [snd] in Hil4, Hit4.
  assert (Hc : create_bigquery_tables Sim.cloud s3 = (Ok tt, s4))
    by (rewrite create_bigquery_tables_run, H4a; exact H4).
  rewrite (process_video_steps Sim.cloud rt event bucket name rl rtr rest
             s s1 s2 s3 s4 Hb Hn Ha Hl Hs Hc).
  rewrite (store_results_projected Sim.cloud rt _ rl rtr rest lrows trows s4 Hp).
  rewrite sim_append_rows_ok;
    [| rewrite Hil4, Hil4a; exact Hil | rewrite Hit4, Hit4a; exact Hit ].
  cbn [fst snd world stdout Sim.with_inserted Sim.inserted Sim.tables].
  split; [reflexivity|].
  split; [rewrite Hins4, Hins4a, <- app_assoc; reflexivity|].
  split; [destruct Hsome_l as [found Hfound]; rewrite (Hkeep4 _ _ Hfound); eauto|].
  split; [exact Hsome_t|].
  rewrite last_snoc. reflexivity.
Qed.

(** The sample event and results over the empty store. *)
Lemma process_video_succeeds_demo :
  fst (process_video Sim.cloud Sim.runtime Demo.event Scenario.fresh) = Ok tt
  ∧ length (Sim.inserted (world (snd (process_video Sim.cloud Sim.runtime
                                        Demo.event Scenario.fresh)))) = 2.
Proof.
  destruct (process_video_succeeds Sim.runtime Demo.event "b" "clip.mp4"
              Demo.labels Demo.speech [] Scenario.fresh)
    as (lrows & trows & _ & Hok & Hins & _).
  - reflexivity.
  - reflexivity.
  - reflexivity.
  - repeat constructor; discriminate.
  - repeat constructor; discriminate.
  - reflexivity.
  - reflexivity.
  - reflexivity.
  - split; [exact Hok|]. rewrite Hins. reflexivity.
Defined.

(** X24: rows in error never raise.  When the projection has returned
    and both appends return their lists of rows in error, whatever these
    lists hold, [store_results_in_bigquery] returns after both appends and
    prints one line per table; a table whose list is not empty gets the line
    that shows the errors, not the line of success, and the other table's
    line is not affected. *)
Theorem row_errors_are_reported {W} (cloud : Cloud W) (rt : Runtime)
        (video_uri : string)
        (rl rtr : VideoAnnotationResults.t) (rest : list VideoAnnotationResults.t)
        (lrows : list LabelRow.t) (trows : list TranscriptRow.t)
        (s : State W) (errs_l errs_t : list RowError) (w1 w2 : W) :
  project rt video_uri rl rtr = Ok (lrows, trows) →
  insert_rows_json cloud table_ref_labels (map RowOfLabel lrows) (world s)
  = (Ok errs_l, w1) →
  insert_rows_json cloud table_ref_transcript (map RowOfTranscript trows) w1
  = (Ok errs_t, w2) →
  let line (table : string) (errs : list RowError) :=
    match errs with
    | [] => "New rows have been added to the '" +:+ table +:+ "' table."
    | _ => "Encountered errors while inserting rows into '" +:+ table
           +:+ "' table: " +:+ repr_errors rt errs
    end in
  store_results_in_bigquery cloud rt video_uri (rl :: rtr :: rest) s
  = (Ok tt,
     {| stdout := stdout s ++ [line "labels" errs_l; line "transcript" errs_t];
        calls := calls s
                 ++ [CallInsertRowsJson table_ref_labels (map RowOfLabel lrows);
                     CallInsertRowsJson table_ref_transcript
                                        (map RowOfTranscript trows)];
        world := w2 |}).
Proof.
  intros Hp H1 H2. cbv zeta.
  rewrite (store_results_projected cloud rt video_uri rl rtr rest lrows trows s Hp).
  rewrite (append_rows_labels_return cloud rt _ _ _ _ _ _ _ H1 H2).
  cbv zeta. rewrite <- !app_assoc. reflexivity.
Qed.

(** The second label row is rejected, the transcript rows are accepted. *)
Lemma row_errors_are_reported_demo :
  let out := store_results_in_bigquery Sim.cloud Sim.runtime Demo.video_uri
               Demo.results Scenario.rejecting in
  fst out = Ok tt
  ∧ stdout (snd out)
    = [ "Encountered errors while inserting rows into 'labels' table: "
        +:+ repr_errors Sim.runtime Scenario.rejected;
        "New rows have been added to the 'transcript' table." ]
  ∧ length (calls (snd out)) = 2.
Proof.
  cbv zeta. unfold Demo.results.
  rewrite (row_errors_are_reported Sim.cloud Sim.runtime Demo.video_uri
             Demo.labels Demo.speech [] (fst Demo.rows) (snd Demo.rows)
             Scenario.rejecting Scenario.rejected []
             (world Scenario.rejecting)
             (Sim.with_inserted (world Scenario.rejecting)
                [(table_ref_transcript, map RowOfTranscript (snd Demo.rows))])).
  - auto.
  - vm_compute; reflexivity.
  - vm_compute; reflexivity.
  - vm_compute; reflexivity.
Defined.
